(** * Basic regulatory elements of Lanelet2

    A shallow embedding of [lanelet2_core/src/BasicRegulatoryElements.cpp]:
    the four concrete regulatory elements ([TrafficLight], [RightOfWay],
    [TrafficSign], [SpeedLimit]), their construction from arguments and from
    an existing record, their accessors and their mutators.

    Primitives of Lanelet2 are handles on shared data objects.  A handle is
    modelled by the address of its data object (plus the [inverted] flag
    where the handle has one); the data objects themselves live in a
    [World] that is passed to every function that reads them and returned
    by every function that writes them. *)

From stdpp Require Import base countable gmap list strings option.

Local Open Scope string_scope.
Local Open Scope list_scope.

(** ** Outcomes of a call

    A call of the C++ code returns, throws, or runs into undefined
    behaviour (the front of an empty vector, the end iterator of a map
    dereferenced). *)

Inductive Exception :=
  | InvalidInputError (what : string)
  | NoSuchAttributeError.

Inductive Outcome (A : Type) :=
  | Returns (a : A)
  | Throws (e : Exception)
  | UndefinedBehaviour.

Arguments Returns {A} a.
Arguments Throws {A} e.
Arguments UndefinedBehaviour {A}.

Definition Outcome_map {A B : Type} (f : A → B) (o : Outcome A) : Outcome B :=
  match o with
  | Returns a => Returns (f a)
  | Throws e => Throws e
  | UndefinedBehaviour => UndefinedBehaviour
  end.

Definition Outcome_bind {A B : Type} (o : Outcome A) (k : A → Outcome B) : Outcome B :=
  match o with
  | Returns a => k a
  | Throws e => Throws e
  | UndefinedBehaviour => UndefinedBehaviour
  end.

Notation "x ← o ;;; k" := (Outcome_bind o (λ x, k))
  (at level 20, o at level 100, k at level 200, only parsing).

Definition throws {A : Type} (o : Outcome A) : Prop := ∃ what, o = Throws (InvalidInputError what).

(** ** Names and values fixed by the headers *)

(** Addresses of shared data objects ([std::shared_ptr] targets). *)
Abbreviation DataPtr := positive (only parsing).
Abbreviation Id := Z (only parsing).
Abbreviation AttributeMap := (gmap string string) (only parsing).

Module AttributeName.
(** Modelled from the spec: the two reserved attribute keys, which the
    spec calls Type and Subtype; the enumeration [AttributeName] is
    declared in Attribute.h, which is not among the sources.  The results
    below use only that the two keys differ. *)
Definition Type_ : string := "type".
Definition Subtype : string := "subtype".
End AttributeName.

Module AttributeValueString.
(** Modelled from the spec: the sentinel values of the reserved
    attributes, declared in Attribute.h. *)
Definition RegulatoryElement : string := "regulatory_element".
Definition TrafficSign : string := "traffic_sign".
Definition TrafficLight : string := "traffic_light".
Definition SpeedLimit : string := "speed_limit".
Definition RightOfWay : string := "right_of_way".
End AttributeValueString.

Module RoleName.
(** Modelled from the spec: the enumeration of roles, declared in
    RegulatoryElement.h. *)
Inductive t := Refers | RefLine | RightOfWay | Yield | Cancels | CancelLine.

Definition index (r : t) : nat :=
  match r with
  | Refers => 0 | RefLine => 1 | RightOfWay => 2
  | Yield => 3 | Cancels => 4 | CancelLine => 5
  end.

Definition of_index (n : nat) : t :=
  match n with
  | 0 => Refers | 1 => RefLine | 2 => RightOfWay
  | 3 => Yield | 4 => Cancels | _ => CancelLine
  end.

#[global] Instance eq_dec : EqDecision t.
Proof. solve_decision. Defined.

#[global] Instance countable : Countable t.
Proof. by apply (inj_countable' index of_index); intros []. Defined.
End RoleName.

Module ManeuverType.
Inductive t := Yield | RightOfWay | Unknown.
End ManeuverType.

(** ** Primitives

    Each handle carries the address of its data object.  Equality of two
    handles is equality of the addresses and, for the invertible ones, of
    the [inverted] flags: it is Rocq's equality on these records. *)

Record Point3d := mkPoint3d { Point3d_data : DataPtr }.
Record LineString3d := mkLineString3d { LineString3d_data : DataPtr; LineString3d_inverted : bool }.
Record Polygon3d := mkPolygon3d { Polygon3d_data : DataPtr }.
Record Lanelet := mkLanelet { Lanelet_data : DataPtr; Lanelet_inverted : bool }.
Record WeakLanelet := mkWeakLanelet { WeakLanelet_data : DataPtr; WeakLanelet_inverted : bool }.
Record WeakArea := mkWeakArea { WeakArea_data : DataPtr }.

(** Const handles differ from the mutable ones only in what the C++ type
    system lets the caller do with them. *)
Abbreviation ConstLineString3d := LineString3d (only parsing).
Abbreviation ConstLanelet := Lanelet (only parsing).

Inductive LineStringOrPolygon3d :=
  | IsLineString (l : LineString3d)
  | IsPolygon (p : Polygon3d).

Abbreviation ConstLineStringOrPolygon3d := LineStringOrPolygon3d (only parsing).

(** [RuleParameter] is a [boost::variant] over the primitives. *)
Inductive RuleParameter :=
  | PointParam (p : Point3d)
  | LineStringParam (l : LineString3d)
  | PolygonParam (p : Polygon3d)
  | WeakLaneletParam (l : WeakLanelet)
  | WeakAreaParam (a : WeakArea).

Abbreviation RuleParameters := (list RuleParameter) (only parsing).
Abbreviation RuleParameterMap := (gmap RoleName.t (list RuleParameter)) (only parsing).

#[global] Instance Point3d_eq_dec : EqDecision Point3d.
Proof. solve_decision. Defined.
#[global] Instance LineString3d_eq_dec : EqDecision LineString3d.
Proof. solve_decision. Defined.
#[global] Instance Polygon3d_eq_dec : EqDecision Polygon3d.
Proof. solve_decision. Defined.
#[global] Instance Lanelet_eq_dec : EqDecision Lanelet.
Proof. solve_decision. Defined.
#[global] Instance WeakLanelet_eq_dec : EqDecision WeakLanelet.
Proof. solve_decision. Defined.
#[global] Instance WeakArea_eq_dec : EqDecision WeakArea.
Proof. solve_decision. Defined.
#[global] Instance LineStringOrPolygon3d_eq_dec : EqDecision LineStringOrPolygon3d.
Proof. solve_decision. Defined.
#[global] Instance RuleParameter_eq_dec : EqDecision RuleParameter.
Proof. solve_decision. Defined.
#[global] Instance Exception_eq_dec : EqDecision Exception.
Proof. solve_decision. Defined.

Module TrafficSignsWithType.
Record t := mk {
  trafficSigns : list LineStringOrPolygon3d;
  type : string
}.
End TrafficSignsWithType.

(** ** The world of shared data objects

    [primitiveAttributes] holds the attribute map of every point,
    linestring and polygon data object (an object the map does not list has
    no attribute).  [alive] is the set of lanelet and area data objects
    that some strong handle still owns: a weak handle on any other address
    has expired. *)

Record World := mkWorld {
  primitiveAttributes : gmap DataPtr (gmap string string);
  alive : gset DataPtr
}.

Definition attributesAt (w : World) (p : DataPtr) : gmap string string :=
  default ∅ (primitiveAttributes w !! p).

Definition setAttributeAt (p : DataPtr) (name value : string) (w : World) : World :=
  {| primitiveAttributes := <[p := <[name := value]> (attributesAt w p)]> (primitiveAttributes w);
     alive := alive w |}.

(** ** The regulatory element record *)

Record RegulatoryElementData := mkRegulatoryElementData {
  id_ : Id;
  parameters : gmap RoleName.t (list RuleParameter);
  attributes : gmap string string
}.

Definition with_attribute (name value : string) (d : RegulatoryElementData) : RegulatoryElementData :=
  {| id_ := id_ d; parameters := parameters d; attributes := <[name := value]> (attributes d) |}.

Definition with_parameter (role : RoleName.t) (ps : list RuleParameter) (d : RegulatoryElementData)
  : RegulatoryElementData :=
  {| id_ := id_ d; parameters := <[role := ps]> (parameters d); attributes := attributes d |}.

(** The sequence a role holds; a role the map does not list holds none. *)
Definition roleSequence (d : RegulatoryElementData) (role : RoleName.t) : list RuleParameter :=
  default [] (parameters d !! role).

(** ** Equality of rule parameters *)

Definition expired (w : World) (p : DataPtr) : bool := bool_decide (p ∉ alive w).

(** [std::operator==] on [LaneletDataConstWptr]: both pointers are live and
    lock to the same data object. *)
Definition LaneletDataConstWptr_eq (w : World) (lhs rhs : DataPtr) : bool :=
  negb (expired w lhs) && negb (expired w rhs) && bool_decide (lhs = rhs).

(** Modelled from the spec: equality of two weak lanelets (declared in
    Lanelet.h): both are live and resolve to the same lanelet, that is to
    the same data object with the same orientation. *)
Definition WeakLanelet_eq (w : World) (a b : WeakLanelet) : bool :=
  LaneletDataConstWptr_eq w (WeakLanelet_data a) (WeakLanelet_data b)
  && bool_decide (WeakLanelet_inverted a = WeakLanelet_inverted b).

(** Modelled from the spec: equality of two weak areas (declared in Area.h). *)
Definition WeakArea_eq (w : World) (a b : WeakArea) : bool :=
  negb (expired w (WeakArea_data a)) && negb (expired w (WeakArea_data b))
  && bool_decide (WeakArea_data a = WeakArea_data b).

(** Equality of two variants: the same alternative, and equal contents by
    the alternative's own [operator==]. *)
Definition RuleParameter_eq (w : World) (a b : RuleParameter) : bool :=
  match a, b with
  | PointParam p, PointParam q => bool_decide (p = q)
  | LineStringParam l, LineStringParam m => bool_decide (l = m)
  | PolygonParam p, PolygonParam q => bool_decide (p = q)
  | WeakLaneletParam l, WeakLaneletParam m => WeakLanelet_eq w l m
  | WeakAreaParam x, WeakAreaParam y => WeakArea_eq w x y
  | _, _ => false
  end.

(** ** Conversions to and from [RuleParameter] *)

Definition asRuleParameter (primitive : LineStringOrPolygon3d) : RuleParameter :=
  match primitive with
  | IsLineString l => LineStringParam l
  | IsPolygon p => PolygonParam p
  end.

(** A lanelet converts to the weak handle on its data object. *)
Definition WeakLanelet_of (l : Lanelet) : WeakLanelet :=
  {| WeakLanelet_data := Lanelet_data l; WeakLanelet_inverted := Lanelet_inverted l |}.

Definition WeakLanelet_lock (l : WeakLanelet) : Lanelet :=
  {| Lanelet_data := WeakLanelet_data l; Lanelet_inverted := WeakLanelet_inverted l |}.

Definition RuleParameter_of_Lanelet (l : Lanelet) : RuleParameter := WeakLaneletParam (WeakLanelet_of l).

(** [boost::get<T>(&param)]. *)
Definition get_LineString3d (param : RuleParameter) : option LineString3d :=
  match param with LineStringParam l => Some l | _ => None end.

Definition get_Polygon3d (param : RuleParameter) : option Polygon3d :=
  match param with PolygonParam p => Some p | _ => None end.

Definition get_WeakLanelet (param : RuleParameter) : option WeakLanelet :=
  match param with WeakLaneletParam l => Some l | _ => None end.

(** The data object behind a sign, as [applyVisitor] reaches it. *)
Definition dataOf (sign : LineStringOrPolygon3d) : DataPtr :=
  match sign with
  | IsLineString l => LineString3d_data l
  | IsPolygon p => Polygon3d_data p
  end.

Definition hasAttribute (w : World) (sign : LineStringOrPolygon3d) (name : string) : bool :=
  bool_decide (is_Some (attributesAt w (dataOf sign) !! name)).

(** [attribute] throws on a name the primitive does not carry. *)
Definition attribute (w : World) (sign : LineStringOrPolygon3d) (name : string) : Outcome string :=
  match attributesAt w (dataOf sign) !! name with
  | Some value => Returns value
  | None => Throws NoSuchAttributeError
  end.

Definition setAttribute (sign : LineStringOrPolygon3d) (name value : string) (w : World) : World :=
  setAttributeAt (dataOf sign) name value w.

(** ** The helpers of the anonymous namespace *)

Fixpoint findAndErase (w : World) (primitive : RuleParameter) (member : list RuleParameter)
  : bool * list RuleParameter :=
  match member with
  | [] => (false, [])
  | x :: rest =>
      if RuleParameter_eq w x primitive then (true, rest)
      else let '(found, rest') := findAndErase w primitive rest in (found, x :: rest')
  end.

Definition tryGetFront {T : Type} (vec : list T) : option T :=
  match vec with
  | [] => None
  | front :: _ => Some front
  end.

Definition toRuleParameters_LineStrings3d (primitives : list LineString3d) : list RuleParameter :=
  map LineStringParam primitives.

Definition toRuleParameters_Lanelets (primitives : list Lanelet) : list RuleParameter :=
  map RuleParameter_of_Lanelet primitives.

Definition toRuleParameters (primitives : list LineStringOrPolygon3d) : list RuleParameter :=
  map asRuleParameter primitives.

Fixpoint lineStringsOrPolygonsOf (params : list RuleParameter) : list LineStringOrPolygon3d :=
  match params with
  | [] => []
  | param :: rest =>
      match get_LineString3d param with Some l => [IsLineString l] | None => [] end
      ++ match get_Polygon3d param with Some p => [IsPolygon p] | None => [] end
      ++ lineStringsOrPolygonsOf rest
  end.

Definition getLsOrPoly (paramsMap : gmap RoleName.t (list RuleParameter)) (role : RoleName.t)
  : list LineStringOrPolygon3d :=
  match paramsMap !! role with
  | None => []
  | Some params => lineStringsOrPolygonsOf params
  end.

Definition getConstLsOrPoly (params : gmap RoleName.t (list RuleParameter)) (role : RoleName.t)
  : list LineStringOrPolygon3d :=
  map (λ lsOrPoly, lsOrPoly) (getLsOrPoly params role).

(** The group is passed by value, and the visitor takes each sign by
    value: the copies are handles on the same data objects, so the
    attributes are written to the signs of the caller. *)
Definition updateTrafficSigns (trafficSigns : TrafficSignsWithType.t) (w : World) : World :=
  if decide (TrafficSignsWithType.type trafficSigns = "") then w
  else
    foldl
      (λ w sign,
         setAttribute sign AttributeName.Subtype (TrafficSignsWithType.type trafficSigns)
           (setAttribute sign AttributeName.Type_ AttributeValueString.TrafficSign w))
      w (TrafficSignsWithType.trafficSigns trafficSigns).

Definition constructTrafficLightData (id : Id) (attributes : gmap string string)
    (trafficLights : list LineString3d) (stopLine : option LineString3d) : RegulatoryElementData :=
  let rpm : gmap RoleName.t (list RuleParameter) :=
    {[ RoleName.Refers := toRuleParameters_LineStrings3d trafficLights ]} in
  let rpm :=
    match stopLine with
    | Some line => <[RoleName.RefLine := [LineStringParam line]]> rpm
    | None => rpm
    end in
  let data := mkRegulatoryElementData id rpm attributes in
  let data := with_attribute AttributeName.Type_ AttributeValueString.RegulatoryElement data in
  with_attribute AttributeName.Subtype AttributeValueString.TrafficLight data.

Definition constructTrafficSignData (id : Id) (attributes : gmap string string)
    (trafficSigns cancellingTrafficSigns : TrafficSignsWithType.t)
    (refLines cancelLines : list LineString3d) (w : World) : World * RegulatoryElementData :=
  let w := updateTrafficSigns trafficSigns w in
  let w := updateTrafficSigns cancellingTrafficSigns w in
  let rpm : gmap RoleName.t (list RuleParameter) :=
    <[RoleName.CancelLine := toRuleParameters_LineStrings3d cancelLines]>
      (<[RoleName.RefLine := toRuleParameters_LineStrings3d refLines]>
         (<[RoleName.Cancels := toRuleParameters (TrafficSignsWithType.trafficSigns cancellingTrafficSigns)]>
            {[ RoleName.Refers := toRuleParameters (TrafficSignsWithType.trafficSigns trafficSigns) ]})) in
  let data := mkRegulatoryElementData id rpm attributes in
  let data := with_attribute AttributeName.Type_ AttributeValueString.RegulatoryElement data in
  (w, with_attribute AttributeName.Subtype AttributeValueString.TrafficSign data).

Definition constructSpeedLimitData (id : Id) (attributes : gmap string string)
    (trafficSigns cancellingTrafficSigns : TrafficSignsWithType.t)
    (refLines cancelLines : list LineString3d) (w : World) : World * RegulatoryElementData :=
  let '(w, data) :=
    constructTrafficSignData id attributes trafficSigns cancellingTrafficSigns refLines cancelLines w in
  (w, with_attribute AttributeName.Subtype AttributeValueString.SpeedLimit data).

Definition constructRightOfWayData (id : Id) (attributes : gmap string string)
    (rightOfWay yield : list Lanelet) (stopLine : option LineString3d) : RegulatoryElementData :=
  let rpm : gmap RoleName.t (list RuleParameter) :=
    <[RoleName.Yield := toRuleParameters_Lanelets yield]>
      {[ RoleName.RightOfWay := toRuleParameters_Lanelets rightOfWay ]} in
  let data := mkRegulatoryElementData id rpm attributes in
  let data := with_attribute AttributeName.Type_ AttributeValueString.RegulatoryElement data in
  let data := with_attribute AttributeName.Subtype AttributeValueString.RightOfWay data in
  match stopLine with
  | Some line => with_parameter RoleName.RefLine [LineStringParam line] data
  | None => data
  end.

(** ** The typed view base

    A typed view holds a pointer to the record it was built from and reads
    and writes through it: a view is modelled by the record itself, and a
    mutator returns the record after the call. *)

(** [parameters()[role].emplace_back(p)]: [operator[]] creates the role
    with an empty sequence when the map does not list it. *)
Definition emplace_back (role : RoleName.t) (p : RuleParameter) (data : RegulatoryElementData)
  : RegulatoryElementData :=
  with_parameter role (roleSequence data role ++ [p]) data.

(** [findAndErase(p, parameters().find(role)->second)]: [find] returns the
    end iterator for a role the map does not list, and [->second]
    dereferences it. *)
Definition findAndEraseIn (w : World) (p : RuleParameter) (role : RoleName.t)
    (data : RegulatoryElementData) : Outcome (bool * RegulatoryElementData) :=
  match parameters data !! role with
  | None => UndefinedBehaviour
  | Some member =>
      let '(found, member') := findAndErase w p member in
      Returns (found, with_parameter role member' data)
  end.

(** Modelled from the spec: [RegulatoryElement::getParameters<T>] (declared
    in RegulatoryElement.h) yields, in order, the entries of the role whose
    alternative is [T], and drops the others; a role the map does not list
    yields nothing. *)
Definition getParameters_LineString3d (data : RegulatoryElementData) (role : RoleName.t)
  : list LineString3d :=
  omap get_LineString3d (roleSequence data role).

Definition getParameters_WeakLanelet (data : RegulatoryElementData) (role : RoleName.t)
  : list WeakLanelet :=
  omap get_WeakLanelet (roleSequence data role).

(** Modelled from the spec: [utils::strong] resolves each weak lanelet and
    skips the expired ones. *)
Definition strong (w : World) (lanelets : list WeakLanelet) : list Lanelet :=
  omap (λ l, if expired w (WeakLanelet_data l) then None else Some (WeakLanelet_lock l)) lanelets.

Definition getParameters_ConstLanelet (w : World) (data : RegulatoryElementData) (role : RoleName.t)
  : list Lanelet :=
  strong w (getParameters_WeakLanelet data role).

(** [utils::contains]: [std::find] with the element type's equality. *)
Definition contains {T : Type} `{EqDecision T} (c : list T) (v : T) : bool :=
  existsb (λ x, bool_decide (x = v)) c.

(** ** TrafficLight *)

Module TrafficLight.
Definition RuleName : string := "traffic_light".

Definition fromData (data : RegulatoryElementData) : Outcome RegulatoryElementData :=
  if decide (getParameters_LineString3d data RoleName.Refers = []) then
    Throws (InvalidInputError "No traffic light defined!")
  else if decide (1 < length (getParameters_LineString3d data RoleName.RefLine)) then
    Throws (InvalidInputError "There not exist more than one stop line!")
  else Returns data.

Definition make (id : Id) (attributes : gmap string string) (trafficLights : list LineString3d)
    (stopLine : option LineString3d) : Outcome RegulatoryElementData :=
  fromData (constructTrafficLightData id attributes trafficLights stopLine).

Definition stopLine (data : RegulatoryElementData) : option LineString3d :=
  tryGetFront (getParameters_LineString3d data RoleName.RefLine).

Definition trafficLights (data : RegulatoryElementData) : list LineStringOrPolygon3d :=
  getConstLsOrPoly (parameters data) RoleName.Refers.

Definition addTrafficLight (primitive : LineStringOrPolygon3d) (data : RegulatoryElementData)
  : RegulatoryElementData :=
  emplace_back RoleName.Refers (asRuleParameter primitive) data.

Definition removeTrafficLight (w : World) (primitive : LineStringOrPolygon3d)
    (data : RegulatoryElementData) : Outcome (bool * RegulatoryElementData) :=
  findAndEraseIn w (asRuleParameter primitive) RoleName.Refers data.

Definition setStopLine (stopLine : LineString3d) (data : RegulatoryElementData)
  : RegulatoryElementData :=
  with_parameter RoleName.RefLine [LineStringParam stopLine] data.

Definition removeStopLine (data : RegulatoryElementData) : RegulatoryElementData :=
  with_parameter RoleName.RefLine [] data.
End TrafficLight.

(** ** RightOfWay *)

Module RightOfWay.
Definition RuleName : string := "right_of_way".

Definition fromData (data : RegulatoryElementData) : Outcome RegulatoryElementData :=
  if decide (getParameters_WeakLanelet data RoleName.RightOfWay = []) then
    Throws (InvalidInputError "A maneuver must refer to at least one lanelet that has right of way!")
  else if decide (getParameters_WeakLanelet data RoleName.Yield = []) then
    Throws (InvalidInputError "A maneuver must refer to at least one lanelet that has to yield!")
  else Returns data.

Definition make (id : Id) (attributes : gmap string string) (rightOfWay yield : list Lanelet)
    (stopLine : option LineString3d) : Outcome RegulatoryElementData :=
  fromData (constructRightOfWayData id attributes rightOfWay yield stopLine).

Definition rightOfWayLanelets (w : World) (data : RegulatoryElementData) : list Lanelet :=
  getParameters_ConstLanelet w data RoleName.RightOfWay.

Definition yieldLanelets (w : World) (data : RegulatoryElementData) : list Lanelet :=
  getParameters_ConstLanelet w data RoleName.Yield.

Definition getManeuver (w : World) (data : RegulatoryElementData) (lanelet : Lanelet)
  : ManeuverType.t :=
  if contains (rightOfWayLanelets w data) lanelet then ManeuverType.RightOfWay
  else if contains (yieldLanelets w data) lanelet then ManeuverType.Yield
  else ManeuverType.Unknown.

Definition stopLine (data : RegulatoryElementData) : option LineString3d :=
  match getParameters_LineString3d data RoleName.RefLine with
  | front :: _ => Some front
  | [] => None
  end.

Definition setStopLine (stopLine : LineString3d) (data : RegulatoryElementData)
  : RegulatoryElementData :=
  with_parameter RoleName.RefLine [LineStringParam stopLine] data.

Definition addRightOfWayLanelet (lanelet : Lanelet) (data : RegulatoryElementData)
  : RegulatoryElementData :=
  emplace_back RoleName.RightOfWay (RuleParameter_of_Lanelet lanelet) data.

Definition addYieldLanelet (lanelet : Lanelet) (data : RegulatoryElementData)
  : RegulatoryElementData :=
  emplace_back RoleName.Yield (RuleParameter_of_Lanelet lanelet) data.

Definition removeRightOfWayLanelet (w : World) (lanelet : Lanelet)
    (data : RegulatoryElementData) : Outcome (bool * RegulatoryElementData) :=
  findAndEraseIn w (RuleParameter_of_Lanelet lanelet) RoleName.RightOfWay data.

Definition removeYieldLanelet (w : World) (lanelet : Lanelet)
    (data : RegulatoryElementData) : Outcome (bool * RegulatoryElementData) :=
  findAndEraseIn w (RuleParameter_of_Lanelet lanelet) RoleName.Yield data.

Definition removeStopLine (data : RegulatoryElementData) : RegulatoryElementData :=
  with_parameter RoleName.RefLine [] data.
End RightOfWay.

(** ** TrafficSign and SpeedLimit *)

Module TrafficSign.
Definition RuleName : string := "traffic_sign".

Definition trafficSigns (data : RegulatoryElementData) : list LineStringOrPolygon3d :=
  getConstLsOrPoly (parameters data) RoleName.Refers.

Definition cancellingTrafficSigns (data : RegulatoryElementData) : list LineStringOrPolygon3d :=
  getConstLsOrPoly (parameters data) RoleName.Cancels.

Definition type (w : World) (data : RegulatoryElementData) : Outcome string :=
  match trafficSigns data with
  | [] => Throws (InvalidInputError "Regulatory element can not determine the type of the traffic sign!")
  | front :: _ =>
      if hasAttribute w front AttributeName.Subtype then
        attribute w front AttributeName.Subtype
      else Throws (InvalidInputError "Regulatory element has a traffic sign without subtype attribute!")
  end.

(** [signs.front()] on an empty vector is undefined behaviour. *)
Definition cancelType (w : World) (data : RegulatoryElementData) : Outcome string :=
  match cancellingTrafficSigns data with
  | [] => UndefinedBehaviour
  | front :: _ =>
      if hasAttribute w front AttributeName.Subtype then
        attribute w front AttributeName.Subtype
      else
        Throws (InvalidInputError
                  "Regulatory element has a cancelling traffic sign without subtype attribute!")
  end.

Definition fromData (w : World) (data : RegulatoryElementData) : Outcome RegulatoryElementData :=
  _ ← type w data ;;; Returns data.

Definition make (id : Id) (attributes : gmap string string)
    (trafficSigns cancellingTrafficSigns : TrafficSignsWithType.t)
    (refLines cancelLines : list LineString3d) (w : World)
  : World * Outcome RegulatoryElementData :=
  let '(w, data) :=
    constructTrafficSignData id attributes trafficSigns cancellingTrafficSigns refLines cancelLines w in
  (w, fromData w data).

Definition refLines (data : RegulatoryElementData) : list LineString3d :=
  getParameters_LineString3d data RoleName.RefLine.

Definition cancelLines (data : RegulatoryElementData) : list LineString3d :=
  getParameters_LineString3d data RoleName.CancelLine.

Definition addTrafficSign (sign : LineStringOrPolygon3d) (data : RegulatoryElementData)
  : RegulatoryElementData :=
  emplace_back RoleName.Refers (asRuleParameter sign) data.

Definition removeTrafficSign (w : World) (sign : LineStringOrPolygon3d)
    (data : RegulatoryElementData) : Outcome (bool * RegulatoryElementData) :=
  findAndEraseIn w (asRuleParameter sign) RoleName.Refers data.

Definition addRefLine (line : LineString3d) (data : RegulatoryElementData)
  : RegulatoryElementData :=
  emplace_back RoleName.RefLine (LineStringParam line) data.

Definition removeRefLine (w : World) (line : LineString3d)
    (data : RegulatoryElementData) : Outcome (bool * RegulatoryElementData) :=
  findAndEraseIn w (LineStringParam line) RoleName.RefLine data.

Definition addCancellingRefLine (line : LineString3d) (data : RegulatoryElementData)
  : RegulatoryElementData :=
  emplace_back RoleName.CancelLine (LineStringParam line) data.

Definition removeCancellingRefLine (w : World) (line : LineString3d)
    (data : RegulatoryElementData) : Outcome (bool * RegulatoryElementData) :=
  findAndEraseIn w (LineStringParam line) RoleName.CancelLine data.

Definition addCancellingTrafficSign (sign : LineStringOrPolygon3d) (data : RegulatoryElementData)
  : RegulatoryElementData :=
  emplace_back RoleName.Cancels (asRuleParameter sign) data.

Definition removeCancellingTrafficSign (w : World) (sign : LineStringOrPolygon3d)
    (data : RegulatoryElementData) : Outcome (bool * RegulatoryElementData) :=
  findAndEraseIn w (asRuleParameter sign) RoleName.Cancels data.
End TrafficSign.

Module SpeedLimit.
Definition RuleName : string := "speed_limit".

(** [SpeedLimit(data)] is [TrafficSign(data)]. *)
Definition fromData (w : World) (data : RegulatoryElementData) : Outcome RegulatoryElementData :=
  TrafficSign.fromData w data.

Definition make (id : Id) (attributes : gmap string string)
    (trafficSigns cancellingTrafficSigns : TrafficSignsWithType.t)
    (refLines cancelLines : list LineString3d) (w : World)
  : World * Outcome RegulatoryElementData :=
  let '(w, data) :=
    constructSpeedLimitData id attributes trafficSigns cancellingTrafficSigns refLines cancelLines w in
  (w, TrafficSign.fromData w data).
End SpeedLimit.

(** ** The type registry *)

(** A view of one of the registered types, as the registry hands it out. *)
Inductive RegulatoryElementPtr :=
  | AsTrafficLight (data : RegulatoryElementData)
  | AsRightOfWay (data : RegulatoryElementData)
  | AsTrafficSign (data : RegulatoryElementData)
  | AsSpeedLimit (data : RegulatoryElementData).


(** Modelled from the spec: [RegisterRegulatoryElement<T>] (declared in
    RegulatoryElement.h) enters, under the tag [T::RuleName], the factory
    that builds the view of type [T] from a raw record.  The table holds
    the four registrations of this file, in their order. *)
Definition registry : list (string * (World → RegulatoryElementData → Outcome RegulatoryElementPtr)) :=
  [ (TrafficLight.RuleName, λ _ data, Outcome_map AsTrafficLight (TrafficLight.fromData data));
    (RightOfWay.RuleName, λ _ data, Outcome_map AsRightOfWay (RightOfWay.fromData data));
    (TrafficSign.RuleName, λ w data, Outcome_map AsTrafficSign (TrafficSign.fromData w data));
    (SpeedLimit.RuleName, λ w data, Outcome_map AsSpeedLimit (SpeedLimit.fromData w data)) ].

Fixpoint findFactory (table : list (string * (World → RegulatoryElementData → Outcome RegulatoryElementPtr)))
    (ruleName : string) : option (World → RegulatoryElementData → Outcome RegulatoryElementPtr) :=
  match table with
  | [] => None
  | (tag, factory) :: rest => if decide (tag = ruleName) then Some factory else findFactory rest ruleName
  end.

(** Modelled from the spec: the lookup reads the Subtype attribute of the
    raw record and dispatches to the factory registered under that tag; a
    tag nobody registered is reported as invalid input. *)
Definition RegulatoryElementFactory_create (w : World) (data : RegulatoryElementData)
  : Outcome RegulatoryElementPtr :=
  match attributes data !! AttributeName.Subtype with
  | None => Throws (InvalidInputError "regulatory element has no subtype")
  | Some ruleName =>
      match findFactory registry ruleName with
      | Some factory => factory w data
      | None => Throws (InvalidInputError "regulatory element type is not registered")
      end
  end.

(** ** Vocabulary of the statements *)

(** No entry of [member] compares equal to [p]. *)
Definition absent (w : World) (p : RuleParameter) (member : list RuleParameter) : Prop :=
  ∀ x, x ∈ member → RuleParameter_eq w x p = false.

(** [remove] after [add] reports a removal and leaves every role of the
    record, [role] included, with the sequence it held before [add]. *)
Definition restores (role : RoleName.t)
    (add : RegulatoryElementData → RegulatoryElementData)
    (remove : RegulatoryElementData → Outcome (bool * RegulatoryElementData))
    (data : RegulatoryElementData) : Prop :=
  ∃ data',
    remove (add data) = Returns (true, data')
    ∧ roleSequence data' role = roleSequence data role
    ∧ (∀ r, r ≠ role → parameters data' !! r = parameters data !! r)
    ∧ attributes data' = attributes data.

(** A remove mutator returns on a record that lists [role], and runs into
    undefined behaviour on a record that does not. *)
Definition definedIffListed (role : RoleName.t)
    (remove : RegulatoryElementData → Outcome (bool * RegulatoryElementData))
    (data : RegulatoryElementData) : Prop :=
  (parameters data !! role = None → remove data = UndefinedBehaviour)
  ∧ (is_Some (parameters data !! role) → ∃ found data', remove data = Returns (found, data')).

(** The weak lanelets of a sequence whose referent is gone. *)
Definition isStale (w : World) (p : RuleParameter) : bool :=
  match p with
  | WeakLaneletParam l => expired w (WeakLanelet_data l)
  | _ => false
  end.

Definition staleEntries (w : World) (member : list RuleParameter) : list RuleParameter :=
  filter (λ p, isStale w p = true) member.

(** The two reserved attributes of a record of the type registered under
    [ruleName]. *)
Definition tagged (ruleName : string) (data : RegulatoryElementData) : Prop :=
  attributes data !! AttributeName.Type_ = Some "regulatory_element"
  ∧ attributes data !! AttributeName.Subtype = Some ruleName.

(** What one round of the loop of [updateTrafficSigns] does to the world,
    and to the attribute map of the sign it visits. *)
Definition stamped (type : string) (w : World) (sign : LineStringOrPolygon3d) : World :=
  setAttribute sign AttributeName.Subtype type
    (setAttribute sign AttributeName.Type_ AttributeValueString.TrafficSign w).

Definition stampedAttributes (type : string) (m : gmap string string) : gmap string string :=
  <[AttributeName.Subtype := type]> (<[AttributeName.Type_ := "traffic_sign"]> m).

(** The sign objects of a group. *)
Definition objectsOf (group : TrafficSignsWithType.t) : list positive :=
  map dataOf (TrafficSignsWithType.trafficSigns group).

(** The world after the two updates of [constructTrafficSignData]. *)
Definition afterFirstUpdate (signs : TrafficSignsWithType.t) (w : World) : World :=
  updateTrafficSigns signs w.

Definition afterBothUpdates (signs cancelling : TrafficSignsWithType.t) (w : World) : World :=
  updateTrafficSigns cancelling (updateTrafficSigns signs w).



Definition isLineString (p : RuleParameter) : Prop :=
  ∃ l, p = LineStringParam l.

(** ** Sample objects *)

Module Sample.
Definition lightA : LineString3d := mkLineString3d 1 false.
Definition lightB : LineString3d := mkLineString3d 2 false.
Definition stopLine : LineString3d := mkLineString3d 3 false.
Definition pole : Point3d := mkPoint3d 4.
Definition housing : Polygon3d := mkPolygon3d 5.
Definition sign : LineStringOrPolygon3d := IsLineString (mkLineString3d 6 false).
Definition otherSign : LineStringOrPolygon3d := IsPolygon (mkPolygon3d 7).
Definition laneletA : Lanelet := mkLanelet 10 false.
Definition laneletB : Lanelet := mkLanelet 11 false.
Definition laneletC : Lanelet := mkLanelet 12 false.

(** No primitive carries an attribute; the lanelets A and B are owned,
    the lanelet C is gone. *)
Definition world : World := mkWorld ∅ {[ 10%positive; 11%positive ]}.

(** The sign carries the subtype "stop". *)
Definition worldWithStop : World :=
  setAttribute sign AttributeName.Subtype "stop" world.

Definition twoLights : RegulatoryElementData :=
  constructTrafficLightData 1 ∅ [lightA; lightB] None.

(** A right-of-way record that still lists the lanelet C. *)
Definition crossing : RegulatoryElementData :=
  constructRightOfWayData 2 ∅ [laneletA; laneletC] [laneletB] None.

(** Two raw traffic-light records: the first refers to a point only, the
    second lists a point next to its stop line. *)
Definition lightAtPole : RegulatoryElementData :=
  mkRegulatoryElementData 4
    {[ RoleName.Refers := [PointParam pole] ]}
    {[ AttributeName.Subtype := AttributeValueString.TrafficLight ]}.

Definition lightWithMark : RegulatoryElementData :=
  mkRegulatoryElementData 5
    (<[RoleName.RefLine := [LineStringParam stopLine; PointParam pole]]>
       {[ RoleName.Refers := [LineStringParam lightA] ]})
    {[ AttributeName.Subtype := AttributeValueString.TrafficLight ]}.

Definition stopSigns : TrafficSignsWithType.t := TrafficSignsWithType.mk [sign] "stop".
Definition untypedSigns : TrafficSignsWithType.t := TrafficSignsWithType.mk [sign] "".
Definition noSigns : TrafficSignsWithType.t := TrafficSignsWithType.mk [] "".

(** The sample sign again, as a sign that cancels, with the type "end". *)
Definition endSigns : TrafficSignsWithType.t := TrafficSignsWithType.mk [sign] "end".


(** A raw traffic-sign record, as a reader of map files hands it to the
    registry: it lists the role Refers and no other. *)
Definition rawSign : RegulatoryElementData :=
  mkRegulatoryElementData 3
    {[ RoleName.Refers := [asRuleParameter sign] ]}
    (<[AttributeName.Subtype := AttributeValueString.TrafficSign]>
       {[ AttributeName.Type_ := AttributeValueString.RegulatoryElement ]}).
End Sample.

(** ** Vocabulary of the further statements *)

(** The entries [getLsOrPoly] keeps. *)
Definition isSign (p : RuleParameter) : bool :=
  match p with
  | LineStringParam _ | PolygonParam _ => true
  | _ => false
  end.

(** The seven pairs of an add mutator and its remove mutator, each with
    the role it works on and the rule parameter its argument converts to. *)
Inductive AddRemovePair :
  RoleName.t → RuleParameter → (RegulatoryElementData → RegulatoryElementData) →
  (World → RegulatoryElementData → Outcome (bool * RegulatoryElementData)) → Prop :=
  | TrafficLightPair primitive :
      AddRemovePair RoleName.Refers (asRuleParameter primitive)
        (TrafficLight.addTrafficLight primitive)
        (λ w, TrafficLight.removeTrafficLight w primitive)
  | RightOfWayLaneletPair lanelet :
      AddRemovePair RoleName.RightOfWay (RuleParameter_of_Lanelet lanelet)
        (RightOfWay.addRightOfWayLanelet lanelet)
        (λ w, RightOfWay.removeRightOfWayLanelet w lanelet)
  | YieldLaneletPair lanelet :
      AddRemovePair RoleName.Yield (RuleParameter_of_Lanelet lanelet)
        (RightOfWay.addYieldLanelet lanelet)
        (λ w, RightOfWay.removeYieldLanelet w lanelet)
  | TrafficSignPair sign :
      AddRemovePair RoleName.Refers (asRuleParameter sign)
        (TrafficSign.addTrafficSign sign)
        (λ w, TrafficSign.removeTrafficSign w sign)
  | RefLinePair line :
      AddRemovePair RoleName.RefLine (LineStringParam line)
        (TrafficSign.addRefLine line)
        (λ w, TrafficSign.removeRefLine w line)
  | CancellingRefLinePair line :
      AddRemovePair RoleName.CancelLine (LineStringParam line)
        (TrafficSign.addCancellingRefLine line)
        (λ w, TrafficSign.removeCancellingRefLine w line)
  | CancellingTrafficSignPair sign :
      AddRemovePair RoleName.Cancels (asRuleParameter sign)
        (TrafficSign.addCancellingTrafficSign sign)
        (λ w, TrafficSign.removeCancellingTrafficSign w sign).

(** The four mutators that replace the stop line, each as a function of
    the record. *)
Inductive StopLineMutator : (RegulatoryElementData → RegulatoryElementData) → Prop :=
  | TrafficLightSetStopLine line : StopLineMutator (TrafficLight.setStopLine line)
  | TrafficLightRemoveStopLine : StopLineMutator TrafficLight.removeStopLine
  | RightOfWaySetStopLine line : StopLineMutator (RightOfWay.setStopLine line)
  | RightOfWayRemoveStopLine : StopLineMutator RightOfWay.removeStopLine.

(** The lanelets of a list whose data object is alive. *)
Definition aliveOnes (w : World) (lanelets : list Lanelet) : list Lanelet :=
  filter (λ l, Lanelet_data l ∈ alive w) lanelets.

(** [after] differs from [before] in the sequence of [role] at most. *)
Definition changesOnly (role : RoleName.t) (before after : RegulatoryElementData) : Prop :=
  id_ after = id_ before
  ∧ attributes after = attributes before
  ∧ (∀ r, r ≠ role → parameters after !! r = parameters before !! r)
  ∧ dom (parameters before) ⊆ dom (parameters after).

(** One call of a mutator that returns leads from the record before the
    call to the record after it. *)
Inductive Mutates (w : World) : RegulatoryElementData → RegulatoryElementData → Prop :=
  | Mutates_add role p add remove data :
      AddRemovePair role p add remove → Mutates w data (add data)
  | Mutates_remove role p add remove data found data' :
      AddRemovePair role p add remove →
      remove w data = Returns (found, data') → Mutates w data data'
  | Mutates_stopLine mutator data :
      StopLineMutator mutator → Mutates w data (mutator data).

(** The record answers to [lanelet] in [role]: the role holds the weak
    handle of the lanelet, and the lanelet is alive. *)
Definition resolvesTo (w : World) (data : RegulatoryElementData) (role : RoleName.t)
    (lanelet : Lanelet) : Prop :=
  RuleParameter_of_Lanelet lanelet ∈ roleSequence data role ∧ Lanelet_data lanelet ∈ alive w.

(** * Properties *)

(** ** Equality of rule parameters *)

Lemma expired_alive w p : expired w p = false ↔ p ∈ alive w.
Proof.
  unfold expired. rewrite bool_decide_eq_false. split.
  - intros H. by apply dec_stable.
  - intros H Hn. by apply Hn.
Qed.

Lemma LaneletDataConstWptr_eq_expired w lhs rhs :
  expired w lhs = true ∨ expired w rhs = true → LaneletDataConstWptr_eq w lhs rhs = false.
Proof.
  unfold LaneletDataConstWptr_eq. intros [-> | ->]; simpl; [done|].
  by rewrite andb_false_r.
Qed.

Lemma LaneletDataConstWptr_eq_refl w p :
  LaneletDataConstWptr_eq w p p = negb (expired w p).
Proof.
  unfold LaneletDataConstWptr_eq. rewrite bool_decide_eq_true_2 by done.
  destruct (expired w p); done.
Qed.

Lemma RuleParameter_eq_expired_r w x lanelet :
  expired w (Lanelet_data lanelet) = true →
  RuleParameter_eq w x (RuleParameter_of_Lanelet lanelet) = false.
Proof.
  intros Hexp. destruct x; simpl; try done.
  unfold WeakLanelet_eq. rewrite LaneletDataConstWptr_eq_expired; [done|].
  right. done.
Qed.

Lemma RuleParameter_eq_expired_l w l p :
  expired w (WeakLanelet_data l) = true →
  RuleParameter_eq w (WeakLaneletParam l) p = false.
Proof.
  intros Hexp. destruct p; simpl; try done.
  unfold WeakLanelet_eq. rewrite LaneletDataConstWptr_eq_expired; [done|].
  left. done.
Qed.

Lemma RuleParameter_eq_refl_sign w primitive :
  RuleParameter_eq w (asRuleParameter primitive) (asRuleParameter primitive) = true.
Proof. destruct primitive; simpl; by apply bool_decide_eq_true_2. Qed.

Lemma RuleParameter_eq_refl_line w line :
  RuleParameter_eq w (LineStringParam line) (LineStringParam line) = true.
Proof. simpl. by apply bool_decide_eq_true_2. Qed.

Lemma RuleParameter_eq_refl_lanelet w lanelet :
  Lanelet_data lanelet ∈ alive w →
  RuleParameter_eq w (RuleParameter_of_Lanelet lanelet) (RuleParameter_of_Lanelet lanelet) = true.
Proof.
  intros Halive%expired_alive. simpl. unfold WeakLanelet_eq.
  rewrite LaneletDataConstWptr_eq_refl. simpl. rewrite Halive. simpl.
  by apply bool_decide_eq_true_2.
Qed.

(** ** findAndErase *)

Lemma findAndErase_absent w p member :
  absent w p member → findAndErase w p member = (false, member).
Proof.
  induction member as [|x rest IH]; intros Habs; simpl; [done|].
  rewrite (Habs x) by apply list_elem_of_here.
  rewrite IH; [done|].
  intros y Hy. apply Habs. by apply list_elem_of_further.
Qed.

Lemma findAndErase_appended w p member :
  RuleParameter_eq w p p = true → absent w p member →
  findAndErase w p (member ++ [p]) = (true, member).
Proof.
  intros Hrefl. induction member as [|x rest IH]; intros Habs; simpl.
  - by rewrite Hrefl.
  - rewrite (Habs x) by apply list_elem_of_here.
    rewrite IH; [done|].
    intros y Hy. apply Habs. by apply list_elem_of_further.
Qed.

Lemma findAndErase_appended_found w p member :
  RuleParameter_eq w p p = true → (findAndErase w p (member ++ [p])).1 = true.
Proof.
  intros Hrefl. induction member as [|x rest IH]; simpl.
  - by rewrite Hrefl.
  - destruct (RuleParameter_eq w x p); [done|].
    destruct (findAndErase w p (rest ++ [p])) as [found rest']. done.
Qed.

(** Whatever [findAndErase] erases, it is not a stale weak lanelet. *)
Lemma findAndErase_keeps_stale w p member :
  staleEntries w (findAndErase w p member).2 = staleEntries w member.
Proof.
  unfold staleEntries. induction member as [|x rest IH]; simpl; [done|].
  destruct (RuleParameter_eq w x p) eqn:Heq; simpl.
  - rewrite filter_cons. destruct (isStale w x) eqn:Hstale.
    + destruct x as [| | |l|]; simpl in Hstale; try done.
      by rewrite RuleParameter_eq_expired_l in Heq.
    + by rewrite decide_False by done.
  - destruct (findAndErase w p rest) as [found rest']. simpl in *.
    rewrite !filter_cons, IH. done.
Qed.

(** ** Appending to a role and erasing from it *)

Lemma parameters_emplace_back role p data :
  parameters (emplace_back role p data) !! role = Some (roleSequence data role ++ [p]).
Proof. unfold emplace_back, with_parameter. simpl. apply lookup_insert_eq. Qed.

Lemma roleSequence_with_parameter role ps data :
  roleSequence (with_parameter role ps data) role = ps.
Proof. unfold roleSequence, with_parameter. simpl. by rewrite lookup_insert_eq. Qed.

Lemma parameters_with_parameter_ne role r ps data :
  r ≠ role → parameters (with_parameter role ps data) !! r = parameters data !! r.
Proof. intros Hne. unfold with_parameter. simpl. by apply lookup_insert_ne. Qed.

Lemma with_parameter_same role member data :
  parameters data !! role = Some member → with_parameter role member data = data.
Proof.
  intros Hlook. destruct data as [i ps attrs]. unfold with_parameter. simpl in *.
  f_equal. by apply insert_id.
Qed.

Lemma findAndEraseIn_emplace_back w p role data :
  findAndEraseIn w p role (emplace_back role p data)
  = let '(found, member') := findAndErase w p (roleSequence data role ++ [p]) in
    Returns (found, with_parameter role member' (emplace_back role p data)).
Proof. unfold findAndEraseIn. by rewrite parameters_emplace_back. Qed.

Lemma add_remove_found w p role data :
  RuleParameter_eq w p p = true →
  ∃ data', findAndEraseIn w p role (emplace_back role p data) = Returns (true, data').
Proof.
  intros Hrefl. rewrite findAndEraseIn_emplace_back.
  pose proof (findAndErase_appended_found w p (roleSequence data role) Hrefl) as Hfound.
  destruct (findAndErase w p (roleSequence data role ++ [p])) as [found member'].
  simpl in Hfound. subst found. eauto.
Qed.

Lemma add_remove_restores w p role data :
  RuleParameter_eq w p p = true →
  absent w p (roleSequence data role) →
  restores role (emplace_back role p) (findAndEraseIn w p role) data.
Proof.
  intros Hrefl Habs. unfold restores.
  rewrite findAndEraseIn_emplace_back, findAndErase_appended by done.
  eexists. split; [reflexivity|]. split; [|split].
  - apply roleSequence_with_parameter.
  - intros r Hne. rewrite parameters_with_parameter_ne by done.
    unfold emplace_back. by rewrite parameters_with_parameter_ne.
  - done.
Qed.

Lemma findAndEraseIn_absent w p role data :
  is_Some (parameters data !! role) →
  absent w p (roleSequence data role) →
  findAndEraseIn w p role data = Returns (false, data).
Proof.
  intros [member Hlook] Habs. unfold findAndEraseIn, roleSequence in *.
  rewrite Hlook in *. simpl in Habs.
  rewrite findAndErase_absent by done.
  by rewrite with_parameter_same.
Qed.

Lemma findAndEraseIn_keeps_stale w p role data found data' :
  findAndEraseIn w p role data = Returns (found, data') →
  staleEntries w (roleSequence data' role) = staleEntries w (roleSequence data role).
Proof.
  unfold findAndEraseIn. destruct (parameters data !! role) as [member|] eqn:Hlook; [|done].
  pose proof (findAndErase_keeps_stale w p member) as Hstale.
  destruct (findAndErase w p member) as [found' member']. simpl in Hstale.
  intros [= <- <-]. rewrite roleSequence_with_parameter.
  unfold roleSequence. by rewrite Hlook.
Qed.

(** C5, as amended.  For each pair of an add mutator and its remove
    mutator: the remove called right after the add, with the same
    reference, reports a removal; and when no entry of the role compared
    equal to the reference before the add, it leaves the role with exactly
    the sequence it held before the add (and every other role and the
    attributes as they were).  A lanelet handed to a mutator is a strong
    handle, so its data object is alive. *)
Theorem add_then_remove_restores_when_absent (w : World) (data : RegulatoryElementData) :
  (∀ primitive,
     (∃ data', TrafficLight.removeTrafficLight w primitive
                 (TrafficLight.addTrafficLight primitive data) = Returns (true, data'))
     ∧ (absent w (asRuleParameter primitive) (roleSequence data RoleName.Refers) →
        restores RoleName.Refers (TrafficLight.addTrafficLight primitive)
          (TrafficLight.removeTrafficLight w primitive) data))
  ∧ (∀ lanelet, Lanelet_data lanelet ∈ alive w →
     (∃ data', RightOfWay.removeRightOfWayLanelet w lanelet
                 (RightOfWay.addRightOfWayLanelet lanelet data) = Returns (true, data'))
     ∧ (absent w (RuleParameter_of_Lanelet lanelet) (roleSequence data RoleName.RightOfWay) →
        restores RoleName.RightOfWay (RightOfWay.addRightOfWayLanelet lanelet)
          (RightOfWay.removeRightOfWayLanelet w lanelet) data))
  ∧ (∀ lanelet, Lanelet_data lanelet ∈ alive w →
     (∃ data', RightOfWay.removeYieldLanelet w lanelet
                 (RightOfWay.addYieldLanelet lanelet data) = Returns (true, data'))
     ∧ (absent w (RuleParameter_of_Lanelet lanelet) (roleSequence data RoleName.Yield) →
        restores RoleName.Yield (RightOfWay.addYieldLanelet lanelet)
          (RightOfWay.removeYieldLanelet w lanelet) data))
  ∧ (∀ sign,
     (∃ data', TrafficSign.removeTrafficSign w sign
                 (TrafficSign.addTrafficSign sign data) = Returns (true, data'))
     ∧ (absent w (asRuleParameter sign) (roleSequence data RoleName.Refers) →
        restores RoleName.Refers (TrafficSign.addTrafficSign sign)
          (TrafficSign.removeTrafficSign w sign) data))
  ∧ (∀ line,
     (∃ data', TrafficSign.removeRefLine w line
                 (TrafficSign.addRefLine line data) = Returns (true, data'))
     ∧ (absent w (LineStringParam line) (roleSequence data RoleName.RefLine) →
        restores RoleName.RefLine (TrafficSign.addRefLine line)
          (TrafficSign.removeRefLine w line) data))
  ∧ (∀ line,
     (∃ data', TrafficSign.removeCancellingRefLine w line
                 (TrafficSign.addCancellingRefLine line data) = Returns (true, data'))
     ∧ (absent w (LineStringParam line) (roleSequence data RoleName.CancelLine) →
        restores RoleName.CancelLine (TrafficSign.addCancellingRefLine line)
          (TrafficSign.removeCancellingRefLine w line) data))
  ∧ (∀ sign,
     (∃ data', TrafficSign.removeCancellingTrafficSign w sign
                 (TrafficSign.addCancellingTrafficSign sign data) = Returns (true, data'))
     ∧ (absent w (asRuleParameter sign) (roleSequence data RoleName.Cancels) →
        restores RoleName.Cancels (TrafficSign.addCancellingTrafficSign sign)
          (TrafficSign.removeCancellingTrafficSign w sign) data)).
Proof.
  repeat split; intros;
    first [ apply add_remove_found | apply add_remove_restores; [|done] ];
    first [ apply RuleParameter_eq_refl_sign
          | apply RuleParameter_eq_refl_line
          | by apply RuleParameter_eq_refl_lanelet ].
Qed.

(** C5, as stated, fails: a traffic light whose Refers role holds the
    lights A and B, in this order, holds B and A after A was added and
    removed again: the remove erases the first entry equal to A, not the
    one the add appended. *)
Lemma add_then_remove_reorders_duplicates :
  roleSequence Sample.twoLights RoleName.Refers
  = [LineStringParam Sample.lightA; LineStringParam Sample.lightB]
  ∧ ∃ data',
      TrafficLight.removeTrafficLight Sample.world (IsLineString Sample.lightA)
        (TrafficLight.addTrafficLight (IsLineString Sample.lightA) Sample.twoLights)
      = Returns (true, data')
      ∧ roleSequence data' RoleName.Refers
        = [LineStringParam Sample.lightB; LineStringParam Sample.lightA]
      ∧ roleSequence data' RoleName.Refers ≠ roleSequence Sample.twoLights RoleName.Refers.
Proof.
  split; [reflexivity|]. eexists. split; [reflexivity|]. split; [reflexivity|].
  vm_compute. discriminate.
Qed.

(** ** Expired lanelets *)

Lemma getParameters_WeakLanelet_listed data role :
  getParameters_WeakLanelet data role ≠ [] → is_Some (parameters data !! role).
Proof.
  unfold getParameters_WeakLanelet, roleSequence.
  destruct (parameters data !! role); [eauto | done].
Qed.

Lemma getParameters_LineString3d_listed data role :
  getParameters_LineString3d data role ≠ [] → is_Some (parameters data !! role).
Proof.
  unfold getParameters_LineString3d, roleSequence.
  destruct (parameters data !! role); [eauto | done].
Qed.

Lemma RightOfWay_fromData_Returns data view :
  RightOfWay.fromData data = Returns view →
  view = data
  ∧ getParameters_WeakLanelet data RoleName.RightOfWay ≠ []
  ∧ getParameters_WeakLanelet data RoleName.Yield ≠ [].
Proof.
  unfold RightOfWay.fromData. repeat case_decide; try done.
  by intros [= <-].
Qed.

Lemma absent_expired_lanelet w lanelet member :
  expired w (Lanelet_data lanelet) = true → absent w (RuleParameter_of_Lanelet lanelet) member.
Proof. intros Hexp x _. by apply RuleParameter_eq_expired_r. Qed.

(** C10.  The equality of weak lanelet pointers is false as soon as one
    side has expired, so an expired weak lanelet is not equal to itself.
    On a right-of-way record (one [RightOfWay.fromData] accepted, or any
    record that lists the role), [removeRightOfWayLanelet] and
    [removeYieldLanelet] called with a lanelet whose data object has
    expired return false and leave the record as it was.  And whatever
    lanelet they are called with, the stale entries of the role all stay. *)
Theorem expired_lanelet_is_never_removed (w : World) :
  (∀ lhs rhs, expired w lhs = true ∨ expired w rhs = true →
     LaneletDataConstWptr_eq w lhs rhs = false)
  ∧ (∀ l, expired w (WeakLanelet_data l) = true →
       WeakLanelet_eq w l l = false
       ∧ RuleParameter_eq w (WeakLaneletParam l) (WeakLaneletParam l) = false)
  ∧ (∀ data lanelet, expired w (Lanelet_data lanelet) = true →
       (is_Some (parameters data !! RoleName.RightOfWay) →
        RightOfWay.removeRightOfWayLanelet w lanelet data = Returns (false, data))
       ∧ (is_Some (parameters data !! RoleName.Yield) →
          RightOfWay.removeYieldLanelet w lanelet data = Returns (false, data)))
  ∧ (∀ data lanelet, RightOfWay.fromData data = Returns data →
       expired w (Lanelet_data lanelet) = true →
       RightOfWay.removeRightOfWayLanelet w lanelet data = Returns (false, data)
       ∧ RightOfWay.removeYieldLanelet w lanelet data = Returns (false, data))
  ∧ (∀ data lanelet found data',
       (RightOfWay.removeRightOfWayLanelet w lanelet data = Returns (found, data') →
        staleEntries w (roleSequence data' RoleName.RightOfWay)
        = staleEntries w (roleSequence data RoleName.RightOfWay))
       ∧ (RightOfWay.removeYieldLanelet w lanelet data = Returns (found, data') →
          staleEntries w (roleSequence data' RoleName.Yield)
          = staleEntries w (roleSequence data RoleName.Yield))).
Proof.
  split; [apply LaneletDataConstWptr_eq_expired|].
  split.
  { intros l Hexp. split.
    - unfold WeakLanelet_eq. rewrite LaneletDataConstWptr_eq_expired; [done | by left].
    - by apply RuleParameter_eq_expired_l. }
  split.
  { intros data lanelet Hexp. split; intros Hlisted;
      apply findAndEraseIn_absent; try done; by apply absent_expired_lanelet. }
  split.
  { intros data lanelet Hview Hexp.
    apply RightOfWay_fromData_Returns in Hview as (_ & Hrow & Hyield).
    split; apply findAndEraseIn_absent;
      first [ by apply getParameters_WeakLanelet_listed | by apply absent_expired_lanelet ]. }
  intros data lanelet found data'. split; apply findAndEraseIn_keeps_stale.
Qed.

(** The lanelet C of the sample world has expired; the crossing still
    lists it, and removing it changes nothing. *)
Lemma expired_lanelet_is_never_removed_witness :
  expired Sample.world (Lanelet_data Sample.laneletC) = true
  ∧ RightOfWay.fromData Sample.crossing = Returns Sample.crossing
  ∧ RuleParameter_of_Lanelet Sample.laneletC ∈ roleSequence Sample.crossing RoleName.RightOfWay
  ∧ RightOfWay.removeRightOfWayLanelet Sample.world Sample.laneletC Sample.crossing
    = Returns (false, Sample.crossing).
Proof.
  assert (Hexp : expired Sample.world (Lanelet_data Sample.laneletC) = true) by reflexivity.
  assert (Hview : RightOfWay.fromData Sample.crossing = Returns Sample.crossing) by reflexivity.
  split; [exact Hexp|]. split; [exact Hview|]. split.
  - vm_compute. apply list_elem_of_further, list_elem_of_here.
  - exact (proj1 (proj1 (proj2 (proj2 (proj2 (expired_lanelet_is_never_removed Sample.world))))
                    Sample.crossing Sample.laneletC Hview Hexp)).
Defined.

(** ** Roles the remove mutators rely on *)

Lemma findAndEraseIn_definedIffListed w p role data :
  definedIffListed role (findAndEraseIn w p role) data.
Proof.
  unfold definedIffListed, findAndEraseIn. split.
  - by intros ->.
  - intros [member ->]. destruct (findAndErase w p member) as [found member']. eauto.
Qed.

Lemma emplace_back_keeps_roles role p data r :
  is_Some (parameters data !! r) → is_Some (parameters (emplace_back role p data) !! r).
Proof.
  intros Hlisted. unfold emplace_back, with_parameter. simpl.
  destruct (decide (role = r)) as [->|Hne].
  - rewrite lookup_insert_eq. eauto.
  - by rewrite lookup_insert_ne.
Qed.

Lemma findAndEraseIn_keeps_roles w p role data found data' r :
  findAndEraseIn w p role data = Returns (found, data') →
  is_Some (parameters data !! r) → is_Some (parameters data' !! r).
Proof.
  unfold findAndEraseIn. destruct (parameters data !! role) as [member|]; [|done].
  destruct (findAndErase w p member) as [found' member'].
  intros [= <- <-] Hlisted. unfold with_parameter. simpl.
  destruct (decide (role = r)) as [->|Hne].
  - rewrite lookup_insert_eq. eauto.
  - by rewrite lookup_insert_ne.
Qed.

Lemma TrafficLight_fromData_Returns data view :
  TrafficLight.fromData data = Returns view →
  view = data
  ∧ getParameters_LineString3d data RoleName.Refers ≠ []
  ∧ (length (getParameters_LineString3d data RoleName.RefLine) ≤ 1)%nat.
Proof.
  unfold TrafficLight.fromData. repeat case_decide; try done.
  intros [= <-]. repeat split; [done | lia].
Qed.

Lemma TrafficSign_fromData_Returns w data view :
  TrafficSign.fromData w data = Returns view → view = data.
Proof.
  unfold TrafficSign.fromData. destruct (TrafficSign.type w data); simpl; [|done..].
  by intros [= <-].
Qed.

Lemma constructTrafficSignData_roles id attrs signs cancelling refLines cancelLines w :
  let data := (constructTrafficSignData id attrs signs cancelling refLines cancelLines w).2 in
  parameters data !! RoleName.Refers = Some (toRuleParameters (TrafficSignsWithType.trafficSigns signs))
  ∧ parameters data !! RoleName.Cancels
    = Some (toRuleParameters (TrafficSignsWithType.trafficSigns cancelling))
  ∧ parameters data !! RoleName.RefLine = Some (toRuleParameters_LineStrings3d refLines)
  ∧ parameters data !! RoleName.CancelLine = Some (toRuleParameters_LineStrings3d cancelLines).
Proof. simpl. repeat split; by simplify_map_eq. Qed.

Lemma constructTrafficLightData_roles id attrs trafficLights stopLine :
  parameters (constructTrafficLightData id attrs trafficLights stopLine) !! RoleName.Refers
  = Some (toRuleParameters_LineStrings3d trafficLights).
Proof. unfold constructTrafficLightData. destruct stopLine; simpl; by simplify_map_eq. Qed.

Lemma constructRightOfWayData_roles id attrs rightOfWay yield stopLine :
  parameters (constructRightOfWayData id attrs rightOfWay yield stopLine) !! RoleName.RightOfWay
  = Some (toRuleParameters_Lanelets rightOfWay)
  ∧ parameters (constructRightOfWayData id attrs rightOfWay yield stopLine) !! RoleName.Yield
    = Some (toRuleParameters_Lanelets yield).
Proof. unfold constructRightOfWayData. destruct stopLine; simpl; split; by simplify_map_eq. Qed.

Lemma constructSpeedLimitData_parameters id attrs signs cancelling refLines cancelLines w :
  parameters (constructSpeedLimitData id attrs signs cancelling refLines cancelLines w).2
  = parameters (constructTrafficSignData id attrs signs cancelling refLines cancelLines w).2.
Proof. reflexivity. Qed.

(** C9.  Each of the seven remove mutators returns on a record that lists
    its role and runs into undefined behaviour on one that does not.  A
    typed constructor enters every role its remove mutators look up, so
    the view it returns lists them.  A raw record need not:
    [TrafficSign.fromData], and the registry through it, accept the sample
    traffic-sign record, which lists Refers only, and [removeRefLine],
    [removeCancellingRefLine] and [removeCancellingTrafficSign] are
    undefined on it. *)
Theorem remove_mutators_need_their_role :
  (∀ w data,
     (∀ primitive, definedIffListed RoleName.Refers (TrafficLight.removeTrafficLight w primitive) data)
     ∧ (∀ sign, definedIffListed RoleName.Refers (TrafficSign.removeTrafficSign w sign) data)
     ∧ (∀ line, definedIffListed RoleName.RefLine (TrafficSign.removeRefLine w line) data)
     ∧ (∀ line, definedIffListed RoleName.CancelLine (TrafficSign.removeCancellingRefLine w line) data)
     ∧ (∀ sign, definedIffListed RoleName.Cancels (TrafficSign.removeCancellingTrafficSign w sign) data)
     ∧ (∀ lanelet, definedIffListed RoleName.RightOfWay (RightOfWay.removeRightOfWayLanelet w lanelet) data)
     ∧ (∀ lanelet, definedIffListed RoleName.Yield (RightOfWay.removeYieldLanelet w lanelet) data))
  ∧ (∀ id attrs trafficLights stopLine,
       is_Some (parameters (constructTrafficLightData id attrs trafficLights stopLine)
                  !! RoleName.Refers)
       ∧ ∀ view, TrafficLight.make id attrs trafficLights stopLine = Returns view →
                 is_Some (parameters view !! RoleName.Refers))
  ∧ (∀ id attrs rightOfWay yield stopLine,
       (is_Some (parameters (constructRightOfWayData id attrs rightOfWay yield stopLine)
                   !! RoleName.RightOfWay)
        ∧ is_Some (parameters (constructRightOfWayData id attrs rightOfWay yield stopLine)
                     !! RoleName.Yield))
       ∧ ∀ view, RightOfWay.make id attrs rightOfWay yield stopLine = Returns view →
                 is_Some (parameters view !! RoleName.RightOfWay)
                 ∧ is_Some (parameters view !! RoleName.Yield))
  ∧ (∀ id attrs signs cancelling refLines cancelLines w view,
       (constructTrafficSignData id attrs signs cancelling refLines cancelLines w).2 = view
       ∨ (constructSpeedLimitData id attrs signs cancelling refLines cancelLines w).2 = view
       ∨ (TrafficSign.make id attrs signs cancelling refLines cancelLines w).2 = Returns view
       ∨ (SpeedLimit.make id attrs signs cancelling refLines cancelLines w).2 = Returns view →
       is_Some (parameters view !! RoleName.Refers)
       ∧ is_Some (parameters view !! RoleName.Cancels)
       ∧ is_Some (parameters view !! RoleName.RefLine)
       ∧ is_Some (parameters view !! RoleName.CancelLine))
  ∧ (TrafficSign.fromData Sample.worldWithStop Sample.rawSign = Returns Sample.rawSign
     ∧ RegulatoryElementFactory_create Sample.worldWithStop Sample.rawSign
       = Returns (AsTrafficSign Sample.rawSign)
     ∧ TrafficSign.removeRefLine Sample.worldWithStop Sample.stopLine Sample.rawSign
       = UndefinedBehaviour
     ∧ TrafficSign.removeCancellingRefLine Sample.worldWithStop Sample.stopLine Sample.rawSign
       = UndefinedBehaviour
     ∧ TrafficSign.removeCancellingTrafficSign Sample.worldWithStop Sample.otherSign Sample.rawSign
       = UndefinedBehaviour).
Proof.
  split.
  { intros w data. split_and!; intros; apply findAndEraseIn_definedIffListed. }
  split.
  { intros id attrs trafficLights stopLine.
    pose proof (constructTrafficLightData_roles id attrs trafficLights stopLine) as Hrefers.
    split; [by rewrite Hrefers|].
    intros view (-> & _)%TrafficLight_fromData_Returns. by rewrite Hrefers. }
  split.
  { intros id attrs rightOfWay yield stopLine.
    pose proof (constructRightOfWayData_roles id attrs rightOfWay yield stopLine)
      as [Hrow Hyield].
    split; [by rewrite Hrow, Hyield|].
    intros view (-> & _)%RightOfWay_fromData_Returns. by rewrite Hrow, Hyield. }
  split.
  { intros id attrs signs cancelling refLines cancelLines w view Hmake.
    pose proof (constructTrafficSignData_roles id attrs signs cancelling refLines cancelLines w)
      as (Hrefers & Hcancels & HrefLine & HcancelLine).
    assert (parameters view
            = parameters (constructTrafficSignData id attrs signs cancelling refLines cancelLines w).2)
      as ->.
    { destruct Hmake as [<-|[<-|[Hmake|Hmake]]]; [reflexivity | reflexivity | |];
        simpl in Hmake; apply TrafficSign_fromData_Returns in Hmake as ->; reflexivity. }
    rewrite Hrefers, Hcancels, HrefLine, HcancelLine. eauto. }
  repeat split; reflexivity.
Qed.

(** ** The reserved attributes *)

Lemma tagged_with_attributes ruleName data :
  tagged ruleName
    (with_attribute AttributeName.Subtype ruleName
       (with_attribute AttributeName.Type_ AttributeValueString.RegulatoryElement data)).
Proof. unfold tagged, with_attribute. simpl. split; by simplify_map_eq. Qed.

Lemma tagged_with_parameter ruleName role ps data :
  tagged ruleName data → tagged ruleName (with_parameter role ps data).
Proof. done. Qed.

Lemma tagged_retag ruleName ruleName' data :
  tagged ruleName data → tagged ruleName' (with_attribute AttributeName.Subtype ruleName' data).
Proof.
  intros [Htype _]. unfold tagged, with_attribute. simpl.
  split; by simplify_map_eq.
Qed.

Lemma constructTrafficLightData_tagged id attrs trafficLights stopLine :
  tagged TrafficLight.RuleName (constructTrafficLightData id attrs trafficLights stopLine).
Proof. apply tagged_with_attributes. Qed.

Lemma constructRightOfWayData_tagged id attrs rightOfWay yield stopLine :
  tagged RightOfWay.RuleName (constructRightOfWayData id attrs rightOfWay yield stopLine).
Proof.
  unfold constructRightOfWayData. destruct stopLine.
  - apply tagged_with_parameter, tagged_with_attributes.
  - apply tagged_with_attributes.
Qed.

Lemma constructTrafficSignData_tagged id attrs signs cancelling refLines cancelLines w :
  tagged TrafficSign.RuleName
    (constructTrafficSignData id attrs signs cancelling refLines cancelLines w).2.
Proof. apply tagged_with_attributes. Qed.

Lemma constructSpeedLimitData_tagged id attrs signs cancelling refLines cancelLines w :
  tagged SpeedLimit.RuleName
    (constructSpeedLimitData id attrs signs cancelling refLines cancelLines w).2.
Proof.
  unfold constructSpeedLimitData.
  pose proof (constructTrafficSignData_tagged id attrs signs cancelling refLines cancelLines w) as Htag.
  destruct (constructTrafficSignData id attrs signs cancelling refLines cancelLines w) as [w' data].
  simpl in *. by eapply tagged_retag.
Qed.

(** C8.  Whatever attribute map the caller supplies, the record a typed
    constructor builds carries the attribute Type with the value
    "regulatory_element" and the attribute Subtype with the tag its type is
    registered under; so does every view a typed constructor returns.  The
    four tags are "traffic_light", "right_of_way", "traffic_sign" and
    "speed_limit". *)
Theorem constructors_fix_type_and_subtype :
  (∀ id attrs trafficLights stopLine,
     tagged "traffic_light" (constructTrafficLightData id attrs trafficLights stopLine)
     ∧ ∀ view, TrafficLight.make id attrs trafficLights stopLine = Returns view →
               tagged "traffic_light" view)
  ∧ (∀ id attrs rightOfWay yield stopLine,
       tagged "right_of_way" (constructRightOfWayData id attrs rightOfWay yield stopLine)
       ∧ ∀ view, RightOfWay.make id attrs rightOfWay yield stopLine = Returns view →
                 tagged "right_of_way" view)
  ∧ (∀ id attrs signs cancelling refLines cancelLines w,
       tagged "traffic_sign" (constructTrafficSignData id attrs signs cancelling refLines cancelLines w).2
       ∧ ∀ view, (TrafficSign.make id attrs signs cancelling refLines cancelLines w).2 = Returns view →
                 tagged "traffic_sign" view)
  ∧ (∀ id attrs signs cancelling refLines cancelLines w,
       tagged "speed_limit" (constructSpeedLimitData id attrs signs cancelling refLines cancelLines w).2
       ∧ ∀ view, (SpeedLimit.make id attrs signs cancelling refLines cancelLines w).2 = Returns view →
                 tagged "speed_limit" view)
  ∧ TrafficLight.RuleName = "traffic_light" ∧ RightOfWay.RuleName = "right_of_way"
  ∧ TrafficSign.RuleName = "traffic_sign" ∧ SpeedLimit.RuleName = "speed_limit".
Proof.
  split_and!; try reflexivity.
  - intros id attrs trafficLights stopLine.
    split; [apply constructTrafficLightData_tagged|].
    intros view (-> & _)%TrafficLight_fromData_Returns. apply constructTrafficLightData_tagged.
  - intros id attrs rightOfWay yield stopLine.
    split; [apply constructRightOfWayData_tagged|].
    intros view (-> & _)%RightOfWay_fromData_Returns. apply constructRightOfWayData_tagged.
  - intros id attrs signs cancelling refLines cancelLines w.
    split; [apply constructTrafficSignData_tagged|].
    intros view Hmake. simpl in Hmake. apply TrafficSign_fromData_Returns in Hmake as ->.
    apply (constructTrafficSignData_tagged id attrs signs cancelling refLines cancelLines w).
  - intros id attrs signs cancelling refLines cancelLines w.
    split; [apply constructSpeedLimitData_tagged|].
    intros view Hmake. simpl in Hmake. apply TrafficSign_fromData_Returns in Hmake as ->.
    apply (constructSpeedLimitData_tagged id attrs signs cancelling refLines cancelLines w).
Qed.

(** ** getManeuver *)

Lemma contains_elem_of {T : Type} `{EqDecision T} (c : list T) (v : T) :
  contains c v = true ↔ v ∈ c.
Proof.
  unfold contains. induction c as [|x rest IH]; simpl.
  - split; [done | by intros ?%elem_of_nil].
  - rewrite orb_true_iff, IH, bool_decide_eq_true, elem_of_cons.
    split; intros [->|Hin]; auto.
Qed.

Lemma contains_not_elem_of {T : Type} `{EqDecision T} (c : list T) (v : T) :
  contains c v = false ↔ v ∉ c.
Proof. rewrite <- contains_elem_of. by destruct (contains c v). Qed.

(** A lanelet is among the resolved lanelets of a role when the role holds
    its weak handle and its data object is alive. *)
Lemma elem_of_getParameters_ConstLanelet w data role lanelet :
  lanelet ∈ getParameters_ConstLanelet w data role
  ↔ RuleParameter_of_Lanelet lanelet ∈ roleSequence data role
    ∧ Lanelet_data lanelet ∈ alive w.
Proof.
  unfold getParameters_ConstLanelet, strong, getParameters_WeakLanelet.
  rewrite list_elem_of_omap. setoid_rewrite list_elem_of_omap. split.
  - intros (l & (p & Hp & Hget) & Hlock).
    destruct p; simplify_eq/=. destruct (expired w (WeakLanelet_data l)) eqn:Hexp; [done|].
    simplify_eq/=. destruct l as [d i]. simpl in *. split; [done|]. by apply expired_alive.
  - intros [Hin Halive%expired_alive]. exists (WeakLanelet_of lanelet). split.
    + by exists (RuleParameter_of_Lanelet lanelet).
    + simpl. rewrite Halive. by destruct lanelet.
Qed.

(** C4.  [getManeuver] answers RightOfWay for a lanelet among the resolved
    lanelets of the role RightOfWay, Yield for one that is only among
    those of the role Yield, Unknown for one that is among neither, and
    RightOfWay for one that is among both. *)
Theorem getManeuver_classifies (w : World) (data : RegulatoryElementData) (lanelet : Lanelet) :
  (lanelet ∈ RightOfWay.rightOfWayLanelets w data →
   RightOfWay.getManeuver w data lanelet = ManeuverType.RightOfWay)
  ∧ (lanelet ∉ RightOfWay.rightOfWayLanelets w data →
     lanelet ∈ RightOfWay.yieldLanelets w data →
     RightOfWay.getManeuver w data lanelet = ManeuverType.Yield)
  ∧ (lanelet ∉ RightOfWay.rightOfWayLanelets w data →
     lanelet ∉ RightOfWay.yieldLanelets w data →
     RightOfWay.getManeuver w data lanelet = ManeuverType.Unknown)
  ∧ (lanelet ∈ RightOfWay.rightOfWayLanelets w data →
     lanelet ∈ RightOfWay.yieldLanelets w data →
     RightOfWay.getManeuver w data lanelet = ManeuverType.RightOfWay).
Proof.
  unfold RightOfWay.getManeuver. split_and!.
  - intros Hrow%contains_elem_of. by rewrite Hrow.
  - intros Hrow%contains_not_elem_of Hyield%contains_elem_of. by rewrite Hrow, Hyield.
  - intros Hrow%contains_not_elem_of Hyield%contains_not_elem_of. by rewrite Hrow, Hyield.
  - intros Hrow%contains_elem_of _. by rewrite Hrow.
Qed.

(** ** Construction of a traffic light from a record *)

Lemma TrafficLight_fromData_spec data :
  TrafficLight.fromData data
  = if decide (getParameters_LineString3d data RoleName.Refers = []) then
      Throws (InvalidInputError "No traffic light defined!")
    else if decide (1 < length (getParameters_LineString3d data RoleName.RefLine))%nat then
      Throws (InvalidInputError "There not exist more than one stop line!")
    else Returns data.
Proof. reflexivity. Qed.

Lemma TrafficLight_fromData_throws_iff data :
  throws (TrafficLight.fromData data)
  ↔ getParameters_LineString3d data RoleName.Refers = []
    ∨ (2 ≤ length (getParameters_LineString3d data RoleName.RefLine))%nat.
Proof.
  rewrite TrafficLight_fromData_spec. unfold throws. repeat case_decide.
  - split; eauto.
  - split; [intros _; right; lia | eauto].
  - split; [by intros [? ?] | intros [?|?]; [done | lia]].
Qed.

Lemma lineStringsOrPolygonsOf_nil params :
  lineStringsOrPolygonsOf params = [] → omap get_LineString3d params = [].
Proof.
  induction params as [|param rest IH]; [done|].
  destruct param; simpl; try done; auto.
Qed.

Lemma getLsOrPoly_nil data role :
  getLsOrPoly (parameters data) role = [] → getParameters_LineString3d data role = [].
Proof.
  unfold getLsOrPoly, getParameters_LineString3d, roleSequence.
  destruct (parameters data !! role); [apply lineStringsOrPolygonsOf_nil | done].
Qed.

Lemma omap_get_LineString3d_all params :
  Forall isLineString params → map LineStringParam (omap get_LineString3d params) = params.
Proof.
  induction 1 as [|param rest [l ->] _ IH]; [done|].
  change (LineStringParam l :: map LineStringParam (omap get_LineString3d rest)
          = LineStringParam l :: rest).
  by f_equal.
Qed.

Lemma getParameters_LineString3d_all data role :
  Forall isLineString (roleSequence data role) →
  length (getParameters_LineString3d data role) = length (roleSequence data role).
Proof.
  intros Hall%omap_get_LineString3d_all. unfold getParameters_LineString3d.
  rewrite <- Hall at 2. by rewrite length_map.
Qed.

(** C2, as amended.  Building a traffic light from a record throws when
    its role Refers holds no linestring and no polygon, and when its role
    RefLine holds two linestrings or more; it returns the view when Refers
    holds a linestring and RefLine holds one linestring at most.  Entries
    of other kinds are not counted.  Hence, on a record whose roles Refers
    and RefLine hold linestrings only, it throws exactly when Refers is
    empty or RefLine has two entries or more.  A traffic light built from
    one light and no stop line is returned, and its [stopLine] is empty. *)
Theorem TrafficLight_construction_counts_linestrings :
  (∀ data,
     (getLsOrPoly (parameters data) RoleName.Refers = []
      ∨ (2 ≤ length (getParameters_LineString3d data RoleName.RefLine))%nat →
      throws (TrafficLight.fromData data))
     ∧ (getParameters_LineString3d data RoleName.Refers ≠ [] →
        (length (getParameters_LineString3d data RoleName.RefLine) ≤ 1)%nat →
        TrafficLight.fromData data = Returns data)
     ∧ (Forall isLineString (roleSequence data RoleName.Refers) →
        Forall isLineString (roleSequence data RoleName.RefLine) →
        (throws (TrafficLight.fromData data)
         ↔ roleSequence data RoleName.Refers = []
           ∨ (2 ≤ length (roleSequence data RoleName.RefLine))%nat)))
  ∧ (∀ id attrs light,
       ∃ view, TrafficLight.make id attrs [light] None = Returns view
               ∧ TrafficLight.trafficLights view = [IsLineString light]
               ∧ TrafficLight.stopLine view = None).
Proof.
  split.
  - intros data. split_and!.
    + intros [Hnone%getLsOrPoly_nil | Hmany]; apply TrafficLight_fromData_throws_iff; auto.
    + intros Hlights Hlines. rewrite TrafficLight_fromData_spec.
      rewrite decide_False by done. rewrite decide_False by lia. done.
    + intros Hrefers HrefLine. rewrite TrafficLight_fromData_throws_iff.
      rewrite (getParameters_LineString3d_all data RoleName.RefLine) by done.
      pose proof (getParameters_LineString3d_all data RoleName.Refers Hrefers) as Hlen.
      split; (intros [Hnil | Hmany]; [left | by right]).
      * apply length_zero_iff_nil. rewrite <- Hlen, Hnil. done.
      * apply length_zero_iff_nil. rewrite Hlen, Hnil. done.
  - intros id attrs light. eexists. split; [reflexivity|]. split; reflexivity.
Qed.

(** C2, as stated, fails on entries that are not linestrings.  The first
    sample record refers to a point: its Refers sequence is not empty and
    it has no stop line, yet the construction throws.  The second lists a
    point next to its stop line: its RefLine sequence has two entries, yet
    the construction returns. *)
Lemma TrafficLight_construction_ignores_other_entries :
  (roleSequence Sample.lightAtPole RoleName.Refers ≠ []
   ∧ length (roleSequence Sample.lightAtPole RoleName.RefLine) = 0%nat
   ∧ TrafficLight.fromData Sample.lightAtPole
     = Throws (InvalidInputError "No traffic light defined!"))
  ∧ (roleSequence Sample.lightWithMark RoleName.Refers ≠ []
     ∧ length (roleSequence Sample.lightWithMark RoleName.RefLine) = 2%nat
     ∧ TrafficLight.fromData Sample.lightWithMark = Returns Sample.lightWithMark).
Proof. split_and!; try reflexivity; vm_compute; discriminate. Qed.

(** The amended statement at the second sample record. *)
Lemma TrafficLight_construction_counts_linestrings_witness :
  TrafficLight.fromData Sample.lightWithMark = Returns Sample.lightWithMark.
Proof.
  apply (proj1 TrafficLight_construction_counts_linestrings Sample.lightWithMark).
  - vm_compute. discriminate.
  - vm_compute. lia.
Defined.

(** ** The type of a traffic sign *)

Lemma hasAttribute_Some w sign name value :
  attributesAt w (dataOf sign) !! name = Some value → hasAttribute w sign name = true.
Proof. intros Hlook. unfold hasAttribute. apply bool_decide_eq_true_2. by rewrite Hlook. Qed.

Lemma hasAttribute_None w sign name :
  attributesAt w (dataOf sign) !! name = None ↔ hasAttribute w sign name = false.
Proof.
  unfold hasAttribute. rewrite bool_decide_eq_false, <- eq_None_not_Some. done.
Qed.

Lemma type_front w data front rest :
  TrafficSign.trafficSigns data = front :: rest →
  TrafficSign.type w data
  = match attributesAt w (dataOf front) !! AttributeName.Subtype with
    | Some value => Returns value
    | None =>
        Throws (InvalidInputError "Regulatory element has a traffic sign without subtype attribute!")
    end.
Proof.
  intros Hsigns. unfold TrafficSign.type. rewrite Hsigns. unfold attribute.
  destruct (attributesAt w (dataOf front) !! AttributeName.Subtype) as [value|] eqn:Hlook.
  - by rewrite (hasAttribute_Some _ _ _ value).
  - apply hasAttribute_None in Hlook. by rewrite Hlook.
Qed.

Lemma cancelType_front w data front rest :
  TrafficSign.cancellingTrafficSigns data = front :: rest →
  TrafficSign.cancelType w data
  = match attributesAt w (dataOf front) !! AttributeName.Subtype with
    | Some value => Returns value
    | None =>
        Throws (InvalidInputError
                  "Regulatory element has a cancelling traffic sign without subtype attribute!")
    end.
Proof.
  intros Hsigns. unfold TrafficSign.cancelType. rewrite Hsigns. unfold attribute.
  destruct (attributesAt w (dataOf front) !! AttributeName.Subtype) as [value|] eqn:Hlook.
  - by rewrite (hasAttribute_Some _ _ _ value).
  - apply hasAttribute_None in Hlook. by rewrite Hlook.
Qed.

(** C6.  [type] throws the invalid-input error exactly when the role
    Refers holds no sign or its first sign has no attribute Subtype;
    otherwise it returns the value of that attribute.  A traffic sign
    built from one sign and the type "stop", or from one sign that already
    carries the subtype "stop", has the type "stop". *)
Theorem type_reads_the_first_sign :
  (∀ w data,
     (throws (TrafficSign.type w data)
      ↔ TrafficSign.trafficSigns data = []
        ∨ ∃ front rest, TrafficSign.trafficSigns data = front :: rest
                        ∧ hasAttribute w front AttributeName.Subtype = false)
     ∧ (∀ front rest value,
          TrafficSign.trafficSigns data = front :: rest →
          attributesAt w (dataOf front) !! AttributeName.Subtype = Some value →
          TrafficSign.type w data = Returns value)
     ∧ (throws (TrafficSign.type w data) ∨ ∃ value, TrafficSign.type w data = Returns value))
  ∧ (∃ w' view,
       TrafficSign.make 1 ∅ Sample.stopSigns Sample.noSigns [] [] Sample.world = (w', Returns view)
       ∧ TrafficSign.type w' view = Returns "stop")
  ∧ (∃ w' view,
       TrafficSign.make 1 ∅ Sample.untypedSigns Sample.noSigns [] [] Sample.worldWithStop
       = (w', Returns view)
       ∧ TrafficSign.type w' view = Returns "stop").
Proof.
  split; [|split; do 2 eexists; split; reflexivity].
  intros w data.
  destruct (TrafficSign.trafficSigns data) as [|front rest] eqn:Hsigns.
  - assert (Hthrows : throws (TrafficSign.type w data)).
    { unfold TrafficSign.type. rewrite Hsigns. by eexists. }
    split_and!; [split; auto | done | by left].
  - rewrite (type_front w data front rest Hsigns).
    destruct (attributesAt w (dataOf front) !! AttributeName.Subtype) as [value|] eqn:Hlook.
    + split_and!.
      * split; [by intros [? ?]|]. intros [? | (f & r & [= <- <-] & Hhas)]; [done|].
        apply hasAttribute_None in Hhas. congruence.
      * intros f r v [= <- <-] Hv. congruence.
      * right. eauto.
    + assert (Hthrows : throws (Throws (A:=string) (InvalidInputError
                "Regulatory element has a traffic sign without subtype attribute!")))
        by by eexists.
      split_and!.
      * split; [|done]. intros _. right. exists front, rest. split; [done|].
        by apply hasAttribute_None.
      * intros f r v [= <- <-] Hv. congruence.
      * by left.
Qed.

(** C3.  Over the role Cancels, [cancelType] does what [type] does over
    the role Refers when the role holds a sign: it returns the Subtype of
    the first sign and throws the invalid-input error when that sign has
    none.  When the role holds no sign, [type] throws the invalid-input
    error, and [cancelType] takes the front of an empty sequence. *)
Theorem cancelType_front_is_unguarded (w : World) (data : RegulatoryElementData) :
  (TrafficSign.cancellingTrafficSigns data = [] →
   TrafficSign.cancelType w data = UndefinedBehaviour)
  ∧ (TrafficSign.trafficSigns data = [] →
     TrafficSign.type w data
     = Throws (InvalidInputError "Regulatory element can not determine the type of the traffic sign!"))
  ∧ (∀ front rest,
       TrafficSign.cancellingTrafficSigns data = front :: rest →
       (∀ value, attributesAt w (dataOf front) !! AttributeName.Subtype = Some value →
                 TrafficSign.cancelType w data = Returns value)
       ∧ (hasAttribute w front AttributeName.Subtype = false →
          throws (TrafficSign.cancelType w data)))
  ∧ (∀ front rest,
       TrafficSign.trafficSigns data = front :: rest →
       (∀ value, attributesAt w (dataOf front) !! AttributeName.Subtype = Some value →
                 TrafficSign.type w data = Returns value)
       ∧ (hasAttribute w front AttributeName.Subtype = false →
          throws (TrafficSign.type w data))).
Proof.
  split_and!.
  - intros Hsigns. unfold TrafficSign.cancelType. by rewrite Hsigns.
  - intros Hsigns. unfold TrafficSign.type. by rewrite Hsigns.
  - intros front rest Hsigns. rewrite (cancelType_front w data front rest Hsigns).
    split; [by intros value -> | intros ->%hasAttribute_None; by eexists].
  - intros front rest Hsigns. rewrite (type_front w data front rest Hsigns).
    split; [by intros value -> | intros ->%hasAttribute_None; by eexists].
Qed.

(** The sample raw record holds one sign and cancels none: the registry
    accepts it, its [type] is "stop", and its [cancelType] is undefined. *)
Lemma cancelType_front_is_unguarded_witness :
  TrafficSign.fromData Sample.worldWithStop Sample.rawSign = Returns Sample.rawSign
  ∧ TrafficSign.type Sample.worldWithStop Sample.rawSign = Returns "stop"
  ∧ TrafficSign.cancelType Sample.worldWithStop Sample.rawSign = UndefinedBehaviour.
Proof.
  split; [reflexivity|]. split; [reflexivity|].
  apply (proj1 (cancelType_front_is_unguarded Sample.worldWithStop Sample.rawSign)).
  reflexivity.
Defined.

(** ** The signs a traffic sign is built from *)

Lemma attributesAt_setAttributeAt p name value w q :
  attributesAt (setAttributeAt p name value w) q
  = if decide (p = q) then <[name := value]> (attributesAt w p) else attributesAt w q.
Proof.
  unfold attributesAt at 1. unfold setAttributeAt. simpl. case_decide as Hpq.
  - subst q. by rewrite lookup_insert_eq.
  - by rewrite lookup_insert_ne.
Qed.

Lemma attributesAt_stamped type w sign q :
  attributesAt (stamped type w sign) q
  = if decide (dataOf sign = q) then stampedAttributes type (attributesAt w q)
    else attributesAt w q.
Proof.
  unfold stamped, setAttribute. rewrite !attributesAt_setAttributeAt.
  case_decide as Hq; [|done]. subst q. by rewrite decide_True by done.
Qed.

Lemma stampedAttributes_idemp type m :
  stampedAttributes type (stampedAttributes type m) = stampedAttributes type m.
Proof.
  unfold stampedAttributes. apply map_eq. intros name.
  destruct (decide (name = AttributeName.Subtype)) as [->|Hsub]; [by simplify_map_eq|].
  destruct (decide (name = AttributeName.Type_)) as [->|Htype]; by simplify_map_eq.
Qed.

Lemma alive_foldl_stamped type signs w :
  alive (foldl (stamped type) w signs) = alive w.
Proof. revert w. induction signs as [|sign rest IH]; intros w; simpl; [done|]. by rewrite IH. Qed.

Lemma attributesAt_foldl_stamped type signs w q :
  attributesAt (foldl (stamped type) w signs) q
  = if decide (q ∈ map dataOf signs) then stampedAttributes type (attributesAt w q)
    else attributesAt w q.
Proof.
  revert w. induction signs as [|sign rest IH]; intros w; cbn [foldl map].
  - rewrite decide_False; [done | apply not_elem_of_nil].
  - rewrite IH, attributesAt_stamped.
    destruct (decide (dataOf sign = q)) as [Heq|Hne].
    + rewrite (decide_True (P := q ∈ dataOf sign :: map dataOf rest))
        by (subst q; apply list_elem_of_here).
      case_decide; [apply stampedAttributes_idemp | done].
    + destruct (decide (q ∈ map dataOf rest)) as [Hin|Hnin].
      * by rewrite decide_True by (by apply list_elem_of_further).
      * rewrite decide_False; [done|].
        intros [?|?]%elem_of_cons; [congruence | done].
Qed.

Lemma updateTrafficSigns_spec group w :
  updateTrafficSigns group w
  = if decide (TrafficSignsWithType.type group = "") then w
    else foldl (stamped (TrafficSignsWithType.type group)) w (TrafficSignsWithType.trafficSigns group).
Proof. reflexivity. Qed.

Lemma alive_updateTrafficSigns group w : alive (updateTrafficSigns group w) = alive w.
Proof. rewrite updateTrafficSigns_spec. case_decide; [done | apply alive_foldl_stamped]. Qed.

Lemma updateTrafficSigns_untyped group w :
  TrafficSignsWithType.type group = "" → updateTrafficSigns group w = w.
Proof. intros Htype. rewrite updateTrafficSigns_spec. by rewrite decide_True. Qed.

Lemma attributesAt_updateTrafficSigns group w q :
  TrafficSignsWithType.type group ≠ "" →
  attributesAt (updateTrafficSigns group w) q
  = if decide (q ∈ objectsOf group)
    then stampedAttributes (TrafficSignsWithType.type group) (attributesAt w q)
    else attributesAt w q.
Proof.
  intros Htype. rewrite updateTrafficSigns_spec, decide_False by done.
  apply attributesAt_foldl_stamped.
Qed.

Lemma stampedAttributes_Type type m :
  stampedAttributes type m !! AttributeName.Type_ = Some "traffic_sign".
Proof. unfold stampedAttributes. by simplify_map_eq. Qed.

Lemma stampedAttributes_Subtype type m :
  stampedAttributes type m !! AttributeName.Subtype = Some type.
Proof. unfold stampedAttributes. by simplify_map_eq. Qed.

Lemma stampedAttributes_other type m name :
  name ≠ AttributeName.Type_ → name ≠ AttributeName.Subtype →
  stampedAttributes type m !! name = m !! name.
Proof. intros. unfold stampedAttributes. by simplify_map_eq. Qed.

Lemma attributesAt_updateTrafficSigns_Type group w q :
  attributesAt w q !! AttributeName.Type_ = Some "traffic_sign" →
  attributesAt (updateTrafficSigns group w) q !! AttributeName.Type_ = Some "traffic_sign".
Proof.
  intros Htype. destruct (decide (TrafficSignsWithType.type group = "")) as [Hempty|Htyped].
  - by rewrite updateTrafficSigns_untyped.
  - rewrite attributesAt_updateTrafficSigns by done.
    case_decide; [apply stampedAttributes_Type | done].
Qed.

Lemma elem_of_objectsOf group sign :
  sign ∈ TrafficSignsWithType.trafficSigns group → dataOf sign ∈ objectsOf group.
Proof. intros Hin. unfold objectsOf. by apply list_elem_of_fmap_2. Qed.

Lemma attributesAt_updateTrafficSigns_outside group w q :
  TrafficSignsWithType.type group = "" ∨ q ∉ objectsOf group →
  attributesAt (updateTrafficSigns group w) q = attributesAt w q.
Proof.
  destruct (decide (TrafficSignsWithType.type group = "")) as [Hempty|Htyped].
  - intros _. by rewrite updateTrafficSigns_untyped.
  - intros [?|Hout]; [done|].
    rewrite attributesAt_updateTrafficSigns by done. by rewrite decide_False.
Qed.

Lemma attributesAt_updateTrafficSigns_other group w q name :
  name ≠ AttributeName.Type_ → name ≠ AttributeName.Subtype →
  attributesAt (updateTrafficSigns group w) q !! name = attributesAt w q !! name.
Proof.
  intros Htype Hsub. destruct (decide (TrafficSignsWithType.type group = "")) as [Hempty|Htyped].
  - by rewrite updateTrafficSigns_untyped.
  - rewrite attributesAt_updateTrafficSigns by done.
    case_decide; [by apply stampedAttributes_other | done].
Qed.

Lemma attributesAt_updateTrafficSigns_inside group w sign :
  TrafficSignsWithType.type group ≠ "" →
  sign ∈ TrafficSignsWithType.trafficSigns group →
  attributesAt (updateTrafficSigns group w) (dataOf sign)
  = stampedAttributes (TrafficSignsWithType.type group) (attributesAt w (dataOf sign)).
Proof.
  intros Htyped Hin%elem_of_objectsOf.
  rewrite attributesAt_updateTrafficSigns by done. by rewrite decide_True.
Qed.

(** C7, as amended.  [constructTrafficSignData], and with it the
    constructors of TrafficSign and SpeedLimit, update the signs of the
    first group, then those of the cancelling group, and then store both
    groups.  The update of a group with a type string gives every sign
    object of the group the attribute Type "traffic_sign" and the
    attribute Subtype of that string, in the world the caller sees
    afterwards; the update of a group without a type string leaves the
    world as it is.  So, when the groups are stored: a sign of a group with
    a type string has the Type "traffic_sign"; a sign of the cancelling
    group, if that group has a type string, has its Subtype; a sign of the
    first group, if that group has a type string, has its Subtype unless
    the cancelling group has a type string too and holds the same sign
    object; and an object is as it was when every group that holds it has
    no type string.  No other attribute and no other object changes. *)
Theorem construction_stamps_typed_signs
    (id : Z) (attrs : gmap string string) (signs cancelling : TrafficSignsWithType.t)
    (refLines cancelLines : list LineString3d) (w : World) :
  let w1 := afterFirstUpdate signs w in
  let w2 := afterBothUpdates signs cancelling w in
  let built := constructTrafficSignData id attrs signs cancelling refLines cancelLines w in
  (built.1 = w2
   ∧ (constructSpeedLimitData id attrs signs cancelling refLines cancelLines w).1 = w2
   ∧ (TrafficSign.make id attrs signs cancelling refLines cancelLines w).1 = w2
   ∧ (SpeedLimit.make id attrs signs cancelling refLines cancelLines w).1 = w2
   ∧ parameters built.2 !! RoleName.Refers
     = Some (toRuleParameters (TrafficSignsWithType.trafficSigns signs))
   ∧ parameters built.2 !! RoleName.Cancels
     = Some (toRuleParameters (TrafficSignsWithType.trafficSigns cancelling)))
  ∧ (TrafficSignsWithType.type signs ≠ "" →
     ∀ sign, sign ∈ TrafficSignsWithType.trafficSigns signs →
       attributesAt w1 (dataOf sign) !! AttributeName.Type_ = Some "traffic_sign"
       ∧ attributesAt w1 (dataOf sign) !! AttributeName.Subtype
         = Some (TrafficSignsWithType.type signs)
       ∧ attributesAt w2 (dataOf sign) !! AttributeName.Type_ = Some "traffic_sign"
       ∧ (TrafficSignsWithType.type cancelling = "" ∨ dataOf sign ∉ objectsOf cancelling →
          attributesAt w2 (dataOf sign) !! AttributeName.Subtype
          = Some (TrafficSignsWithType.type signs)))
  ∧ (TrafficSignsWithType.type signs = "" → w1 = w)
  ∧ (TrafficSignsWithType.type cancelling ≠ "" →
     ∀ sign, sign ∈ TrafficSignsWithType.trafficSigns cancelling →
       attributesAt w2 (dataOf sign) !! AttributeName.Type_ = Some "traffic_sign"
       ∧ attributesAt w2 (dataOf sign) !! AttributeName.Subtype
         = Some (TrafficSignsWithType.type cancelling))
  ∧ (TrafficSignsWithType.type cancelling = "" → w2 = w1)
  ∧ (TrafficSignsWithType.type signs = "" → TrafficSignsWithType.type cancelling = "" → w2 = w)
  ∧ (∀ q, TrafficSignsWithType.type signs = "" ∨ q ∉ objectsOf signs →
          TrafficSignsWithType.type cancelling = "" ∨ q ∉ objectsOf cancelling →
          attributesAt w2 q = attributesAt w q)
  ∧ (∀ q name, name ≠ AttributeName.Type_ → name ≠ AttributeName.Subtype →
               attributesAt w2 q !! name = attributesAt w q !! name)
  ∧ alive w2 = alive w.
Proof.
  unfold afterFirstUpdate, afterBothUpdates. cbv zeta. split_and!.
  - reflexivity.
  - reflexivity.
  - reflexivity.
  - reflexivity.
  - apply (constructTrafficSignData_roles id attrs signs cancelling refLines cancelLines w).
  - apply (constructTrafficSignData_roles id attrs signs cancelling refLines cancelLines w).
  - intros Htyped sign Hin.
    pose proof (attributesAt_updateTrafficSigns_inside signs w sign Htyped Hin) as Hfirst.
    assert (Htype : attributesAt (updateTrafficSigns signs w) (dataOf sign) !! AttributeName.Type_
                    = Some "traffic_sign")
      by (rewrite Hfirst; apply stampedAttributes_Type).
    split_and!.
    + done.
    + rewrite Hfirst. apply stampedAttributes_Subtype.
    + by apply attributesAt_updateTrafficSigns_Type.
    + intros Hout. rewrite attributesAt_updateTrafficSigns_outside by done.
      rewrite Hfirst. apply stampedAttributes_Subtype.
  - apply updateTrafficSigns_untyped.
  - intros Htyped sign Hin.
    rewrite (attributesAt_updateTrafficSigns_inside cancelling _ sign Htyped Hin).
    split; [apply stampedAttributes_Type | apply stampedAttributes_Subtype].
  - apply updateTrafficSigns_untyped.
  - intros Hsigns Hcancelling. by rewrite !updateTrafficSigns_untyped.
  - intros q Hsigns Hcancelling. by rewrite !attributesAt_updateTrafficSigns_outside.
  - intros q name Htype Hsub. by rewrite !attributesAt_updateTrafficSigns_other.
  - by rewrite !alive_updateTrafficSigns.
Qed.

(** The sample sign, built into a traffic sign of the type "stop", carries
    the two attributes afterwards. *)
Lemma construction_stamps_typed_signs_witness :
  let w' := (TrafficSign.make 1 ∅ Sample.stopSigns Sample.noSigns [] [] Sample.world).1 in
  attributesAt Sample.world (dataOf Sample.sign) = ∅
  ∧ attributesAt w' (dataOf Sample.sign) !! AttributeName.Type_ = Some "traffic_sign"
  ∧ attributesAt w' (dataOf Sample.sign) !! AttributeName.Subtype = Some "stop".
Proof.
  cbv zeta. split; [reflexivity|].
  pose proof (construction_stamps_typed_signs 1 ∅ Sample.stopSigns Sample.noSigns [] [] Sample.world)
    as (_ & Hfirst & _).
  assert (Htyped : TrafficSignsWithType.type Sample.stopSigns ≠ "") by discriminate.
  assert (Hin : Sample.sign ∈ TrafficSignsWithType.trafficSigns Sample.stopSigns)
    by apply list_elem_of_here.
  destruct (Hfirst Htyped Sample.sign Hin) as (_ & _ & Htype & Hsub).
  split; [exact Htype|]. apply Hsub. left. reflexivity.
Defined.

(** C7, as stated, fails for a sign object that both groups hold.  Built
    as a sign of the type "stop" and as a cancelling sign of the type
    "end", the sample sign is stored with the Subtype "end", not "stop".
    Built as a sign of a group without a type string and as a cancelling
    sign of the type "end", it is stored with a Type and a Subtype it did
    not have, although a group without a type string holds it. *)
Lemma construction_last_update_wins :
  (let made := TrafficSign.make 1 ∅ Sample.stopSigns Sample.endSigns [] [] Sample.world in
   Sample.sign ∈ TrafficSignsWithType.trafficSigns Sample.stopSigns
   ∧ TrafficSignsWithType.type Sample.stopSigns = "stop"
   ∧ (∃ view, made.2 = Returns view
              ∧ roleSequence view RoleName.Refers = [asRuleParameter Sample.sign])
   ∧ attributesAt made.1 (dataOf Sample.sign) !! AttributeName.Subtype = Some "end"
   ∧ attributesAt made.1 (dataOf Sample.sign) !! AttributeName.Subtype ≠ Some "stop")
  ∧ (let made := TrafficSign.make 1 ∅ Sample.untypedSigns Sample.endSigns [] [] Sample.world in
     Sample.sign ∈ TrafficSignsWithType.trafficSigns Sample.untypedSigns
     ∧ TrafficSignsWithType.type Sample.untypedSigns = ""
     ∧ (∃ view, made.2 = Returns view
                ∧ roleSequence view RoleName.Refers = [asRuleParameter Sample.sign])
     ∧ attributesAt Sample.world (dataOf Sample.sign) = ∅
     ∧ attributesAt made.1 (dataOf Sample.sign) !! AttributeName.Type_ = Some "traffic_sign"
     ∧ attributesAt made.1 (dataOf Sample.sign) !! AttributeName.Subtype = Some "end"
     ∧ attributesAt made.1 (dataOf Sample.sign) ≠ attributesAt Sample.world (dataOf Sample.sign)).
Proof.
  cbv zeta. split.
  - split; [apply list_elem_of_here|]. split; [reflexivity|].
    split; [eexists; split; reflexivity|]. split; [reflexivity|].
    vm_compute. discriminate.
  - split; [apply list_elem_of_here|]. split; [reflexivity|].
    split; [eexists; split; reflexivity|]. split; [reflexivity|].
    split; [reflexivity|]. split; [reflexivity|].
    intros Hsame. apply (f_equal (λ m, m !! AttributeName.Subtype)) in Hsame.
    vm_compute in Hsame. discriminate.
Qed.

(** ** Construction through the registry *)










(** ** The statements at the sample objects *)

(** The housing is not among the two lights: added and removed again, it
    leaves them as they were. *)
Lemma add_then_remove_restores_when_absent_witness :
  absent Sample.world (asRuleParameter (IsPolygon Sample.housing))
    (roleSequence Sample.twoLights RoleName.Refers)
  ∧ restores RoleName.Refers (TrafficLight.addTrafficLight (IsPolygon Sample.housing))
      (TrafficLight.removeTrafficLight Sample.world (IsPolygon Sample.housing)) Sample.twoLights.
Proof.
  assert (Habs : absent Sample.world (asRuleParameter (IsPolygon Sample.housing))
                   (roleSequence Sample.twoLights RoleName.Refers)).
  { intros x Hin.
    change (x ∈ [LineStringParam Sample.lightA; LineStringParam Sample.lightB]) in Hin.
    rewrite !elem_of_cons in Hin.
    destruct Hin as [->|[->|Hin]]; [reflexivity | reflexivity | by apply elem_of_nil in Hin]. }
  split; [exact Habs|].
  exact (proj2 (proj1 (add_then_remove_restores_when_absent Sample.world Sample.twoLights)
                  (IsPolygon Sample.housing)) Habs).
Defined.

(** At the crossing, the lanelet A has the right of way and the lanelet B
    yields; the lanelet C, which the record still lists but which is gone,
    is unknown. *)
Lemma getManeuver_classifies_witness :
  RightOfWay.getManeuver Sample.world Sample.crossing Sample.laneletA = ManeuverType.RightOfWay
  ∧ RightOfWay.getManeuver Sample.world Sample.crossing Sample.laneletB = ManeuverType.Yield
  ∧ RightOfWay.getManeuver Sample.world Sample.crossing Sample.laneletC = ManeuverType.Unknown.
Proof.
  split_and!.
  - apply (proj1 (getManeuver_classifies Sample.world Sample.crossing Sample.laneletA)).
    apply contains_elem_of. reflexivity.
  - apply (proj1 (proj2 (getManeuver_classifies Sample.world Sample.crossing Sample.laneletB))).
    + apply contains_not_elem_of. reflexivity.
    + apply contains_elem_of. reflexivity.
  - apply (proj1 (proj2 (proj2
             (getManeuver_classifies Sample.world Sample.crossing Sample.laneletC)))).
    + apply contains_not_elem_of. reflexivity.
    + apply contains_not_elem_of. reflexivity.
Defined.

(** The caller's attribute map may itself set the reserved attributes: the
    constructor overwrites them. *)
Lemma constructors_fix_type_and_subtype_witness :
  ∃ view,
    TrafficLight.make 1 (<[AttributeName.Subtype := "speed_limit"]> {[ AttributeName.Type_ := "lanelet" ]})
      [Sample.lightA] (Some Sample.stopLine) = Returns view
    ∧ tagged "traffic_light" view.
Proof.
  eexists. split; [reflexivity|].
  apply (proj1 constructors_fix_type_and_subtype 1%Z
           (<[AttributeName.Subtype := "speed_limit"]> {[ AttributeName.Type_ := "lanelet" ]})
           [Sample.lightA] (Some Sample.stopLine)).
  reflexivity.
Defined.

(** * Further properties *)

(** ** What findAndErase erases *)

Lemma LaneletDataConstWptr_eq_true w lhs rhs :
  LaneletDataConstWptr_eq w lhs rhs = true
  ↔ lhs ∈ alive w ∧ rhs ∈ alive w ∧ lhs = rhs.
Proof.
  unfold LaneletDataConstWptr_eq.
  rewrite !andb_true_iff, !negb_true_iff, !expired_alive, bool_decide_eq_true. tauto.
Qed.

Lemma RuleParameter_eq_true w x p : RuleParameter_eq w x p = true → x = p.
Proof.
  destruct x as [a|a|a|a|a], p as [b|b|b|b|b]; simpl; try done.
  - by intros ->%bool_decide_eq_true.
  - by intros ->%bool_decide_eq_true.
  - by intros ->%bool_decide_eq_true.
  - unfold WeakLanelet_eq. rewrite andb_true_iff, LaneletDataConstWptr_eq_true, bool_decide_eq_true.
    intros [(_ & _ & Hdata) Hinv]. destruct a, b. simpl in *. by subst.
  - unfold WeakArea_eq. rewrite !andb_true_iff, bool_decide_eq_true.
    intros [_ Hdata]. destruct a, b. simpl in *. by subst.
Qed.

(** X2.  The weak-pointer equality of the file is symmetric and transitive, and
    a pointer equals itself exactly when it has not expired: the relation
    is an equivalence on the live pointers only. *)
Theorem LaneletDataConstWptr_eq_partial_equivalence (w : World) :
  (∀ lhs rhs, LaneletDataConstWptr_eq w lhs rhs = LaneletDataConstWptr_eq w rhs lhs)
  ∧ (∀ a b c, LaneletDataConstWptr_eq w a b = true → LaneletDataConstWptr_eq w b c = true →
              LaneletDataConstWptr_eq w a c = true)
  ∧ (∀ a, LaneletDataConstWptr_eq w a a = true ↔ expired w a = false)
  ∧ (∀ lhs rhs, LaneletDataConstWptr_eq w lhs rhs = true →
                lhs = rhs ∧ expired w lhs = false).
Proof.
  split_and!.
  - intros lhs rhs. apply eq_true_iff_eq. rewrite !LaneletDataConstWptr_eq_true.
    split; intros (? & ? & ?); by subst.
  - intros a b c. rewrite !LaneletDataConstWptr_eq_true. intros (? & ? & ->) (? & ? & ->). done.
  - intros a. rewrite LaneletDataConstWptr_eq_true, expired_alive. tauto.
  - intros lhs rhs. rewrite LaneletDataConstWptr_eq_true, expired_alive. tauto.
Qed.

Lemma findAndErase_cases w p member :
  (absent w p member ∧ findAndErase w p member = (false, member))
  ∨ (∃ pre post,
       member = pre ++ p :: post
       ∧ absent w p pre
       ∧ RuleParameter_eq w p p = true
       ∧ findAndErase w p member = (true, pre ++ post)).
Proof.
  induction member as [|x rest IH].
  - left. split; [by intros x ?%elem_of_nil | done].
  - simpl. destruct (RuleParameter_eq w x p) eqn:Heq.
    + right. exists [], rest. pose proof (RuleParameter_eq_true w x p Heq) as ->.
      split_and!; [done | by intros y ?%elem_of_nil | done | done].
    + destruct IH as [[Habs ->] | (pre & post & -> & Habs & Hrefl & ->)].
      * left. split; [|done]. intros y [->|Hin]%elem_of_cons; auto.
      * right. exists (x :: pre), post.
        split_and!; [done | | done | done].
        intros y [->|Hin]%elem_of_cons; auto.
Qed.

(** X1.  [findAndErase] either finds no entry equal to the primitive,
    answers false and leaves the sequence as it is, or answers true and
    erases one entry: the first that compares equal, which is then the
    primitive itself.  All other entries keep their order.  It answers
    true exactly when some entry compares equal, and the sequence is
    shorter by one entry then. *)
Theorem findAndErase_erases_first_match (w : World) (p : RuleParameter)
    (member : list RuleParameter) :
  ((absent w p member ∧ findAndErase w p member = (false, member))
   ∨ (∃ pre post,
        member = pre ++ p :: post
        ∧ absent w p pre
        ∧ RuleParameter_eq w p p = true
        ∧ findAndErase w p member = (true, pre ++ post)))
  ∧ ((findAndErase w p member).1 = true
     ↔ ∃ x, x ∈ member ∧ RuleParameter_eq w x p = true)
  ∧ length member
    = (length (findAndErase w p member).2 + if (findAndErase w p member).1 then 1 else 0)%nat.
Proof.
  pose proof (findAndErase_cases w p member) as Hcases. split; [exact Hcases|].
  destruct Hcases as [[Habs ->] | (pre & post & -> & Habs & Hrefl & ->)]; simpl.
  - split; [|lia]. split; [done|]. intros (x & Hin & Heq). by rewrite (Habs x Hin) in Heq.
  - split.
    + split; [|done]. intros _. exists p. split; [|done].
      apply elem_of_app. right. apply list_elem_of_here.
    + rewrite !length_app. simpl. lia.
Qed.

(** ** The add and remove mutators *)

Lemma AddRemovePair_unfold role p add remove :
  AddRemovePair role p add remove →
  add = emplace_back role p ∧ remove = (λ w, findAndEraseIn w p role).
Proof. by intros []. Qed.

Lemma changesOnly_with_parameter role ps data :
  changesOnly role data (with_parameter role ps data).
Proof.
  unfold changesOnly, with_parameter. simpl. split_and!; try done.
  - intros r Hne. by apply lookup_insert_ne.
  - rewrite dom_insert_L. set_solver.
Qed.

Lemma changesOnly_refl role data : changesOnly role data data.
Proof. unfold changesOnly. split_and!; done. Qed.

Lemma findAndEraseIn_Returns w p role data found data' :
  findAndEraseIn w p role data = Returns (found, data') →
  ∃ member, parameters data !! role = Some member
            ∧ data' = with_parameter role (findAndErase w p member).2 data
            ∧ found = (findAndErase w p member).1.
Proof.
  unfold findAndEraseIn. destruct (parameters data !! role) as [member|]; [|done].
  destruct (findAndErase w p member) as [found' member'] eqn:Herase. intros [= <- <-].
  exists member. by rewrite Herase.
Qed.

(** X4.  An add mutator appends the reference to the sequence of its role,
    which it enters into the record when the record does not list it; it
    changes nothing else. *)
Theorem add_appends_to_its_role role p add remove (data : RegulatoryElementData) :
  AddRemovePair role p add remove →
  roleSequence (add data) role = roleSequence data role ++ [p]
  ∧ is_Some (parameters (add data) !! role)
  ∧ changesOnly role data (add data).
Proof.
  intros [-> _]%AddRemovePair_unfold. split_and!.
  - apply roleSequence_with_parameter.
  - rewrite parameters_emplace_back. eauto.
  - apply changesOnly_with_parameter.
Qed.

Lemma add_appends_to_its_role_witness :
  roleSequence (TrafficSign.addRefLine Sample.stopLine Sample.rawSign) RoleName.RefLine
  = [LineStringParam Sample.stopLine]
  ∧ parameters Sample.rawSign !! RoleName.RefLine = None.
Proof.
  split; [|reflexivity].
  exact (proj1 (add_appends_to_its_role _ _ _ _ Sample.rawSign (RefLinePair Sample.stopLine))).
Defined.

(** X5.  A remove mutator called with a reference that no entry of its role
    equals answers false and leaves the record as it is. *)
Theorem remove_of_absent_reference role p add remove (w : World) (data : RegulatoryElementData) :
  AddRemovePair role p add remove →
  is_Some (parameters data !! role) →
  absent w p (roleSequence data role) →
  remove w data = Returns (false, data).
Proof.
  intros [_ ->]%AddRemovePair_unfold Hlisted Habs. by apply findAndEraseIn_absent.
Qed.

Lemma remove_of_absent_reference_witness :
  TrafficLight.removeTrafficLight Sample.world (IsPolygon Sample.housing) Sample.twoLights
  = Returns (false, Sample.twoLights).
Proof.
  apply (remove_of_absent_reference _ _ _ _ Sample.world Sample.twoLights
           (TrafficLightPair (IsPolygon Sample.housing))).
  - vm_compute. eauto.
  - intros x Hin.
    change (x ∈ [LineStringParam Sample.lightA; LineStringParam Sample.lightB]) in Hin.
    rewrite !elem_of_cons in Hin.
    destruct Hin as [->|[->|Hin]]; [reflexivity | reflexivity | by apply elem_of_nil in Hin].
Defined.

(** X6.  A remove mutator that returns changes the sequence of its role only.
    When it answers true, it has erased the first entry equal to the
    reference and kept the others in order; when it answers false, the
    record is as it was. *)
Theorem remove_erases_first_equal_entry role p add remove (w : World)
    (data data' : RegulatoryElementData) (found : bool) :
  AddRemovePair role p add remove →
  remove w data = Returns (found, data') →
  changesOnly role data data'
  ∧ if found then
      ∃ pre post, roleSequence data role = pre ++ p :: post
                  ∧ absent w p pre
                  ∧ roleSequence data' role = pre ++ post
    else data' = data.
Proof.
  intros [_ ->]%AddRemovePair_unfold (member & Hlook & -> & ->)%findAndEraseIn_Returns.
  split; [apply changesOnly_with_parameter|].
  rewrite roleSequence_with_parameter. unfold roleSequence at 1. rewrite Hlook. simpl.
  destruct (findAndErase_cases w p member)
    as [[Habs ->] | (pre & post & -> & Habs & Hrefl & ->)]; simpl.
  - by apply with_parameter_same.
  - eauto.
Qed.

Lemma remove_erases_first_equal_entry_witness :
  ∃ data',
    TrafficLight.removeTrafficLight Sample.world (IsLineString Sample.lightA) Sample.twoLights
    = Returns (true, data')
    ∧ roleSequence data' RoleName.Refers = [LineStringParam Sample.lightB]
    ∧ changesOnly RoleName.Refers Sample.twoLights data'.
Proof.
  eexists. split; [reflexivity|]. split; [reflexivity|].
  eapply (proj1 (remove_erases_first_equal_entry _ _ _ _ Sample.world Sample.twoLights _ true
                   (TrafficLightPair (IsLineString Sample.lightA)) eq_refl)).
Defined.

(** X7.  Add and remove, in either order, permute the sequence of the role:
    the remove called after the add answers true (for a reference that
    equals itself: any linestring or polygon, any lanelet that is alive)
    and leaves the entries of before the add, though not always in their
    order; the add called after a remove that answered true puts the
    erased reference at the end. *)
Theorem add_and_remove_permute role p add remove (w : World) (data : RegulatoryElementData) :
  AddRemovePair role p add remove →
  (RuleParameter_eq w p p = true →
   ∃ data', remove w (add data) = Returns (true, data')
            ∧ roleSequence data' role ≡ₚ roleSequence data role
            ∧ changesOnly role data data')
  ∧ (∀ data', remove w data = Returns (true, data') →
              roleSequence (add data') role ≡ₚ roleSequence data role
              ∧ add data' = with_parameter role (roleSequence data' role ++ [p]) data).
Proof.
  intros [-> ->]%AddRemovePair_unfold. split.
  - intros Hrefl. rewrite findAndEraseIn_emplace_back.
    destruct (findAndErase_cases w p (roleSequence data role ++ [p]))
      as [[Habs _] | (pre & post & Hsplit & Habs & _ & ->)].
    { rewrite Habs in Hrefl; [done|]. apply elem_of_app. right. apply list_elem_of_here. }
    eexists. split; [reflexivity|]. split.
    + rewrite roleSequence_with_parameter.
      apply (Permutation_app_inv_r [p]). rewrite Hsplit.
      etrans; [symmetry; apply Permutation_cons_append | apply Permutation_middle].
    + destruct (changesOnly_with_parameter role (roleSequence data role ++ [p]) data)
        as (Hid & Hattrs & Hother & Hdom).
      unfold changesOnly, with_parameter in *. simpl in *. split_and!; try done.
      * intros r Hne. rewrite lookup_insert_ne by done. by apply Hother.
      * rewrite !dom_insert_L in *. set_solver.
  - intros data' (member & Hlook & -> & Hfound)%findAndEraseIn_Returns.
    unfold emplace_back. rewrite !roleSequence_with_parameter.
    unfold roleSequence. rewrite Hlook. simpl.
    destruct (findAndErase_cases w p member)
      as [[Habs Heq] | (pre & post & -> & Habs & Hrefl & Heq)]; rewrite Heq in *; [done|].
    simpl. split.
    + etrans; [symmetry; apply Permutation_cons_append | apply Permutation_middle].
    + unfold with_parameter. simpl. f_equal. apply insert_insert_eq.
Qed.

Lemma add_and_remove_permute_witness :
  ∃ data',
    TrafficLight.removeTrafficLight Sample.world (IsLineString Sample.lightA)
      (TrafficLight.addTrafficLight (IsLineString Sample.lightA) Sample.twoLights)
    = Returns (true, data')
    ∧ roleSequence data' RoleName.Refers ≡ₚ roleSequence Sample.twoLights RoleName.Refers.
Proof.
  destruct (proj1 (add_and_remove_permute _ _ _ _ Sample.world Sample.twoLights
                     (TrafficLightPair (IsLineString Sample.lightA))) eq_refl)
    as (data' & Hremove & Hperm & _).
  exists data'. split; [exact Hremove | exact Hperm].
Defined.

(** ** What the accessors show *)

Lemma lineStringsOrPolygonsOf_app params params' :
  lineStringsOrPolygonsOf (params ++ params')
  = lineStringsOrPolygonsOf params ++ lineStringsOrPolygonsOf params'.
Proof.
  induction params as [|param rest IH]; [done|].
  cbn [lineStringsOrPolygonsOf app]. rewrite IH. by rewrite !app_assoc.
Qed.

Lemma lineStringsOrPolygonsOf_asRuleParameter signs :
  lineStringsOrPolygonsOf (map asRuleParameter signs) = signs.
Proof.
  induction signs as [|sign rest IH]; [done|].
  cbn [map lineStringsOrPolygonsOf]. rewrite IH. by destruct sign.
Qed.

Lemma lineStringsOrPolygonsOf_LineStringParam lines :
  lineStringsOrPolygonsOf (map LineStringParam lines) = map IsLineString lines.
Proof.
  induction lines as [|line rest IH]; [done|].
  cbn [map lineStringsOrPolygonsOf]. by rewrite IH.
Qed.

Lemma omap_get_LineString3d_LineStringParam lines :
  omap get_LineString3d (map LineStringParam lines) = lines.
Proof. induction lines as [|line rest IH]; [done|]. cbn. by f_equal. Qed.

Lemma omap_get_WeakLanelet_of_Lanelets lanelets :
  omap get_WeakLanelet (map RuleParameter_of_Lanelet lanelets) = map WeakLanelet_of lanelets.
Proof. induction lanelets as [|lanelet rest IH]; [done|]. cbn. by f_equal. Qed.

Lemma WeakLanelet_lock_of lanelet : WeakLanelet_lock (WeakLanelet_of lanelet) = lanelet.
Proof. by destruct lanelet. Qed.

Lemma strong_WeakLanelet_of w lanelets :
  strong w (map WeakLanelet_of lanelets) = aliveOnes w lanelets.
Proof.
  unfold strong, aliveOnes. induction lanelets as [|lanelet rest IH]; [done|].
  cbn [map omap list_omap]. rewrite filter_cons.
  change (WeakLanelet_data (WeakLanelet_of lanelet)) with (Lanelet_data lanelet).
  destruct (expired w (Lanelet_data lanelet)) eqn:Hexp.
  - rewrite decide_False; [exact IH|].
    intros Halive%expired_alive. congruence.
  - apply expired_alive in Hexp. rewrite decide_True by done.
    rewrite WeakLanelet_lock_of. f_equal. exact IH.
Qed.

Lemma getConstLsOrPoly_getLsOrPoly params role :
  getConstLsOrPoly params role = getLsOrPoly params role.
Proof. unfold getConstLsOrPoly. apply map_id. Qed.

Lemma getLsOrPoly_roleSequence data role :
  getLsOrPoly (parameters data) role = lineStringsOrPolygonsOf (roleSequence data role).
Proof. unfold getLsOrPoly, roleSequence. by destruct (parameters data !! role). Qed.

(** X3.  [getLsOrPoly] yields the linestrings and polygons of the role, each
    once and in the order of the role, and drops every other entry; it
    yields nothing for a role the map does not list.  The const variant
    yields the same. *)
Theorem getLsOrPoly_projects (data : RegulatoryElementData) (role : RoleName.t) :
  map asRuleParameter (getLsOrPoly (parameters data) role)
  = filter (λ p, isSign p = true) (roleSequence data role)
  ∧ (∀ sign, sign ∈ getLsOrPoly (parameters data) role
             ↔ asRuleParameter sign ∈ roleSequence data role)
  ∧ (length (getLsOrPoly (parameters data) role) ≤ length (roleSequence data role))%nat
  ∧ (parameters data !! role = None → getLsOrPoly (parameters data) role = [])
  ∧ getConstLsOrPoly (parameters data) role = getLsOrPoly (parameters data) role.
Proof.
  assert (Hfilter : map asRuleParameter (getLsOrPoly (parameters data) role)
                    = filter (λ p, isSign p = true) (roleSequence data role)).
  { rewrite getLsOrPoly_roleSequence.
    induction (roleSequence data role) as [|param rest IH]; [done|].
    rewrite filter_cons. cbn [lineStringsOrPolygonsOf].
    destruct param; cbn [get_LineString3d get_Polygon3d isSign app map asRuleParameter];
      rewrite IH; by case_decide. }
  split_and!.
  - exact Hfilter.
  - intros sign. split.
    + intros Hin. apply (list_elem_of_fmap_2 asRuleParameter) in Hin.
      change (asRuleParameter <$> getLsOrPoly (parameters data) role)
        with (map asRuleParameter (getLsOrPoly (parameters data) role)) in Hin.
      rewrite Hfilter in Hin. by apply list_elem_of_filter in Hin as [_ Hin].
    + intros Hin.
      assert (Hsign : asRuleParameter sign ∈ map asRuleParameter (getLsOrPoly (parameters data) role)).
      { rewrite Hfilter. apply list_elem_of_filter. split; [by destruct sign | done]. }
      apply list_elem_of_fmap in Hsign as (sign' & Heq & Hin').
      by destruct sign, sign'; simplify_eq/=.
  - rewrite <- (length_map asRuleParameter), Hfilter. apply length_filter.
  - intros Hnone. unfold getLsOrPoly. by rewrite Hnone.
  - apply getConstLsOrPoly_getLsOrPoly.
Qed.

(** ** From the arguments of a constructor to the accessors of its view *)

Lemma getParameters_LineString3d_lookup data role member :
  parameters data !! role = Some member →
  getParameters_LineString3d data role = omap get_LineString3d member.
Proof. intros Hlook. unfold getParameters_LineString3d, roleSequence. by rewrite Hlook. Qed.

Lemma getParameters_LineString3d_unlisted data role :
  parameters data !! role = None → getParameters_LineString3d data role = [].
Proof. intros Hlook. unfold getParameters_LineString3d, roleSequence. by rewrite Hlook. Qed.

Lemma constructTrafficLightData_RefLine id attrs trafficLights stopLine :
  parameters (constructTrafficLightData id attrs trafficLights stopLine) !! RoleName.RefLine
  = (λ line, [LineStringParam line]) <$> stopLine.
Proof. unfold constructTrafficLightData. destruct stopLine; simpl; by simplify_map_eq. Qed.

Lemma constructTrafficLightData_stopLine id attrs trafficLights stopLine :
  getParameters_LineString3d (constructTrafficLightData id attrs trafficLights stopLine)
    RoleName.RefLine
  = option_list stopLine.
Proof.
  pose proof (constructTrafficLightData_RefLine id attrs trafficLights stopLine) as Hlook.
  destruct stopLine as [line|].
  - by rewrite (getParameters_LineString3d_lookup _ _ [LineStringParam line] Hlook).
  - by rewrite (getParameters_LineString3d_unlisted _ _ Hlook).
Qed.

Lemma constructTrafficLightData_lights id attrs trafficLights stopLine :
  getParameters_LineString3d (constructTrafficLightData id attrs trafficLights stopLine)
    RoleName.Refers
  = trafficLights.
Proof.
  rewrite (getParameters_LineString3d_lookup _ _ _
             (constructTrafficLightData_roles id attrs trafficLights stopLine)).
  apply omap_get_LineString3d_LineStringParam.
Qed.

(** X8.  The typed constructor of a traffic light throws exactly when it is
    given no light.  Otherwise the view it returns shows the lights it was
    given, in order, and the stop line it was given, or none; it lists the
    role RefLine only when it was given a stop line; and it keeps the
    identifier and every attribute of the caller but the two reserved ones. *)
Theorem TrafficLight_make_round_trip (id : Z) (attrs : gmap string string)
    (trafficLights : list LineString3d) (stopLine : option LineString3d) :
  (trafficLights = [] →
   TrafficLight.make id attrs trafficLights stopLine
   = Throws (InvalidInputError "No traffic light defined!"))
  ∧ (trafficLights ≠ [] →
     ∃ view,
       TrafficLight.make id attrs trafficLights stopLine = Returns view
       ∧ TrafficLight.trafficLights view = map IsLineString trafficLights
       ∧ TrafficLight.stopLine view = stopLine
       ∧ (is_Some (parameters view !! RoleName.RefLine) ↔ is_Some stopLine)
       ∧ id_ view = id
       ∧ ∀ name, name ≠ AttributeName.Type_ → name ≠ AttributeName.Subtype →
                 attributes view !! name = attrs !! name).
Proof.
  unfold TrafficLight.make. rewrite TrafficLight_fromData_spec.
  rewrite constructTrafficLightData_lights, constructTrafficLightData_stopLine. split.
  - intros ->. by rewrite decide_True.
  - intros Hlights. rewrite decide_False by done.
    rewrite decide_False by (destruct stopLine; simpl; lia).
    eexists. split; [reflexivity|]. split_and!.
    + unfold TrafficLight.trafficLights.
      rewrite getConstLsOrPoly_getLsOrPoly. unfold getLsOrPoly.
      rewrite constructTrafficLightData_roles. apply lineStringsOrPolygonsOf_LineStringParam.
    + unfold TrafficLight.stopLine. rewrite constructTrafficLightData_stopLine.
      by destruct stopLine.
    + rewrite constructTrafficLightData_RefLine. destruct stopLine; simpl.
      * split; eauto.
      * split; intros [? ?]; done.
    + done.
    + intros name Htype Hsub. simpl. by simplify_map_eq.
Qed.

Lemma constructRightOfWayData_lanelets id attrs rightOfWay yield stopLine :
  getParameters_WeakLanelet (constructRightOfWayData id attrs rightOfWay yield stopLine)
    RoleName.RightOfWay = map WeakLanelet_of rightOfWay
  ∧ getParameters_WeakLanelet (constructRightOfWayData id attrs rightOfWay yield stopLine)
      RoleName.Yield = map WeakLanelet_of yield.
Proof.
  pose proof (constructRightOfWayData_roles id attrs rightOfWay yield stopLine) as [Hrow Hyield].
  unfold getParameters_WeakLanelet, roleSequence. rewrite Hrow, Hyield. simpl.
  split; apply omap_get_WeakLanelet_of_Lanelets.
Qed.

Lemma constructRightOfWayData_stopLine id attrs rightOfWay yield stopLine :
  getParameters_LineString3d (constructRightOfWayData id attrs rightOfWay yield stopLine)
    RoleName.RefLine
  = option_list stopLine.
Proof.
  unfold constructRightOfWayData. destruct stopLine as [line|].
  - erewrite getParameters_LineString3d_lookup; [|apply lookup_insert_eq]. done.
  - apply getParameters_LineString3d_unlisted. simpl. by simplify_map_eq.
Qed.

(** X9.  The typed constructor of a right of way throws when it is given no
    lanelet with the right of way, and, if not that, when it is given no
    lanelet that yields.  Otherwise it returns a view whose two lanelet
    accessors show, in any world, the lanelets it was given that are still
    alive, in order, and whose stop line is the one it was given. *)
Theorem RightOfWay_make_round_trip (id : Z) (attrs : gmap string string)
    (rightOfWay yield : list Lanelet) (stopLine : option LineString3d) :
  (rightOfWay = [] →
   RightOfWay.make id attrs rightOfWay yield stopLine
   = Throws (InvalidInputError
               "A maneuver must refer to at least one lanelet that has right of way!"))
  ∧ (rightOfWay ≠ [] → yield = [] →
     RightOfWay.make id attrs rightOfWay yield stopLine
     = Throws (InvalidInputError
                 "A maneuver must refer to at least one lanelet that has to yield!"))
  ∧ (rightOfWay ≠ [] → yield ≠ [] →
     ∃ view,
       RightOfWay.make id attrs rightOfWay yield stopLine = Returns view
       ∧ (∀ w, RightOfWay.rightOfWayLanelets w view = aliveOnes w rightOfWay
               ∧ RightOfWay.yieldLanelets w view = aliveOnes w yield)
       ∧ RightOfWay.stopLine view = stopLine
       ∧ id_ view = id).
Proof.
  pose proof (constructRightOfWayData_lanelets id attrs rightOfWay yield stopLine)
    as [Hrow Hyield].
  unfold RightOfWay.make, RightOfWay.fromData. rewrite Hrow, Hyield. split_and!.
  - intros ->. by rewrite decide_True.
  - intros Hrow' ->. rewrite decide_False by (by destruct rightOfWay). by rewrite decide_True.
  - intros Hrow' Hyield'.
    rewrite decide_False by (by destruct rightOfWay).
    rewrite decide_False by (by destruct yield).
    eexists. split; [reflexivity|]. split_and!.
    + intros w. unfold RightOfWay.rightOfWayLanelets, RightOfWay.yieldLanelets,
        getParameters_ConstLanelet.
      rewrite Hrow, Hyield. split; apply strong_WeakLanelet_of.
    + unfold RightOfWay.stopLine. rewrite constructRightOfWayData_stopLine.
      by destruct stopLine.
    + by destruct stopLine.
Qed.

(** The lanelets handed to the constructor while alive are all shown. *)
Lemma RightOfWay_make_round_trip_witness :
  ∃ view,
    RightOfWay.make 2 ∅ [Sample.laneletA; Sample.laneletC] [Sample.laneletB] None = Returns view
    ∧ RightOfWay.rightOfWayLanelets Sample.world view = [Sample.laneletA]
    ∧ RightOfWay.yieldLanelets Sample.world view = [Sample.laneletB].
Proof.
  destruct (proj2 (proj2 (RightOfWay_make_round_trip 2 ∅ [Sample.laneletA; Sample.laneletC]
                            [Sample.laneletB] None)))
    as (view & Hmake & Hlanelets & _); [done | done |].
  exists view. split; [exact Hmake|]. destruct (Hlanelets Sample.world) as [-> ->].
  split; reflexivity.
Defined.

Lemma TrafficLight_make_round_trip_witness :
  ∃ view,
    TrafficLight.make 1 ∅ [Sample.lightA; Sample.lightB] (Some Sample.stopLine) = Returns view
    ∧ TrafficLight.trafficLights view
      = [IsLineString Sample.lightA; IsLineString Sample.lightB]
    ∧ TrafficLight.stopLine view = Some Sample.stopLine.
Proof.
  destruct (proj2 (TrafficLight_make_round_trip 1 ∅ [Sample.lightA; Sample.lightB]
                     (Some Sample.stopLine)))
    as (view & Hmake & Hlights & Hstop & _); [done|].
  exists view. split; [exact Hmake|]. split; [exact Hlights | exact Hstop].
Defined.

Lemma getLsOrPoly_lookup (params : gmap RoleName.t (list RuleParameter)) role signs :
  params !! role = Some (toRuleParameters signs) → getLsOrPoly params role = signs.
Proof.
  intros Hlook. unfold getLsOrPoly. rewrite Hlook.
  apply lineStringsOrPolygonsOf_asRuleParameter.
Qed.

Lemma constructTrafficSignData_accessors id attrs signs cancelling refLines cancelLines w :
  let data := (constructTrafficSignData id attrs signs cancelling refLines cancelLines w).2 in
  TrafficSign.trafficSigns data = TrafficSignsWithType.trafficSigns signs
  ∧ TrafficSign.cancellingTrafficSigns data = TrafficSignsWithType.trafficSigns cancelling
  ∧ TrafficSign.refLines data = refLines
  ∧ TrafficSign.cancelLines data = cancelLines.
Proof.
  pose proof (constructTrafficSignData_roles id attrs signs cancelling refLines cancelLines w)
    as (Hrefers & Hcancels & HrefLine & HcancelLine).
  cbv zeta. unfold TrafficSign.trafficSigns, TrafficSign.cancellingTrafficSigns,
    TrafficSign.refLines, TrafficSign.cancelLines.
  rewrite !getConstLsOrPoly_getLsOrPoly.
  rewrite (getLsOrPoly_lookup _ _ _ Hrefers), (getLsOrPoly_lookup _ _ _ Hcancels).
  rewrite (getParameters_LineString3d_lookup _ _ _ HrefLine).
  rewrite (getParameters_LineString3d_lookup _ _ _ HcancelLine).
  by rewrite !omap_get_LineString3d_LineStringParam.
Qed.

Lemma TrafficSign_make_unfold id attrs signs cancelling refLines cancelLines w :
  TrafficSign.make id attrs signs cancelling refLines cancelLines w
  = (afterBothUpdates signs cancelling w,
     TrafficSign.fromData (afterBothUpdates signs cancelling w)
       (constructTrafficSignData id attrs signs cancelling refLines cancelLines w).2).
Proof. reflexivity. Qed.

(** X10.  The typed constructor of a traffic sign throws when it is given
    no sign.  The view it returns, when it returns, shows the signs, the
    cancelling signs, the lines and the cancelling lines it was given, in
    order.  Given a sign, what happens follows the first sign.  If the
    cancelling group has a type string and holds the object of the first
    sign, the constructor returns and [type] is the type string of the
    cancelling group.  If not, and the signs have a type string, the
    constructor returns and [type] is that string.  If not, and the signs
    have no type string, the constructor returns when the first sign
    carried a Subtype before the call, which is then the [type], and
    throws when it carried none.  [cancelType] is the type string of the
    cancelling group when that group has one and is not empty, and is
    undefined when the view was given no cancelling sign. *)
Theorem TrafficSign_make_round_trip (id : Z) (attrs : gmap string string)
    (signs cancelling : TrafficSignsWithType.t) (refLines cancelLines : list LineString3d)
    (w : World) :
  let w' := (TrafficSign.make id attrs signs cancelling refLines cancelLines w).1 in
  let made := (TrafficSign.make id attrs signs cancelling refLines cancelLines w).2 in
  (TrafficSignsWithType.trafficSigns signs = [] →
   made = Throws (InvalidInputError
                    "Regulatory element can not determine the type of the traffic sign!"))
  ∧ (∀ view, made = Returns view →
       TrafficSign.trafficSigns view = TrafficSignsWithType.trafficSigns signs
       ∧ TrafficSign.cancellingTrafficSigns view = TrafficSignsWithType.trafficSigns cancelling
       ∧ TrafficSign.refLines view = refLines
       ∧ TrafficSign.cancelLines view = cancelLines
       ∧ id_ view = id)
  ∧ (∀ front rest,
       TrafficSignsWithType.trafficSigns signs = front :: rest →
       TrafficSignsWithType.type signs ≠ "" →
       ∃ view,
         made = Returns view
         ∧ TrafficSign.type w' view
           = Returns (if decide (TrafficSignsWithType.type cancelling ≠ ""
                                 ∧ dataOf front ∈ objectsOf cancelling)
                      then TrafficSignsWithType.type cancelling
                      else TrafficSignsWithType.type signs))
  ∧ (∀ front rest view,
       TrafficSignsWithType.trafficSigns cancelling = front :: rest →
       TrafficSignsWithType.type cancelling ≠ "" →
       made = Returns view →
       TrafficSign.cancelType w' view = Returns (TrafficSignsWithType.type cancelling))
  ∧ (∀ view,
       TrafficSignsWithType.trafficSigns cancelling = [] →
       made = Returns view →
       TrafficSign.cancelType w' view = UndefinedBehaviour)
  ∧ (∀ front rest,
       TrafficSignsWithType.trafficSigns signs = front :: rest →
       TrafficSignsWithType.type signs = "" →
       if decide (TrafficSignsWithType.type cancelling ≠ ""
                  ∧ dataOf front ∈ objectsOf cancelling)
       then ∃ view, made = Returns view
                    ∧ TrafficSign.type w' view
                      = Returns (TrafficSignsWithType.type cancelling)
       else match attributesAt w (dataOf front) !! AttributeName.Subtype with
            | Some value =>
                ∃ view, made = Returns view ∧ TrafficSign.type w' view = Returns value
            | None =>
                made = Throws (InvalidInputError
                                 "Regulatory element has a traffic sign without subtype attribute!")
            end).
Proof.
  rewrite TrafficSign_make_unfold. cbv zeta. cbn [fst snd].
  pose proof (constructTrafficSignData_accessors id attrs signs cancelling refLines cancelLines w)
    as (Hsigns & Hcancelling & HrefLines & HcancelLines).
  cbv zeta in Hsigns, Hcancelling, HrefLines, HcancelLines.
  set (data := (constructTrafficSignData id attrs signs cancelling refLines cancelLines w).2) in *.
  set (w' := afterBothUpdates signs cancelling w).
  assert (Htype : ∀ front rest,
            TrafficSignsWithType.trafficSigns signs = front :: rest →
            TrafficSignsWithType.type signs ≠ "" →
            TrafficSign.type w' data
            = Returns (if decide (TrafficSignsWithType.type cancelling ≠ ""
                                  ∧ dataOf front ∈ objectsOf cancelling)
                       then TrafficSignsWithType.type cancelling
                       else TrafficSignsWithType.type signs)).
  { intros front rest Hfront Htyped.
    rewrite (type_front w' data front rest) by (by rewrite Hsigns).
    subst w'. unfold afterBothUpdates.
    assert (Hin : front ∈ TrafficSignsWithType.trafficSigns signs)
      by (rewrite Hfront; apply list_elem_of_here).
    case_decide as Hcase.
    - destruct Hcase as [Hctyped Hcin].
      rewrite attributesAt_updateTrafficSigns by done. rewrite decide_True by done.
      by rewrite stampedAttributes_Subtype.
    - rewrite attributesAt_updateTrafficSigns_outside.
      + rewrite attributesAt_updateTrafficSigns_inside by done.
        by rewrite stampedAttributes_Subtype.
      + destruct (decide (TrafficSignsWithType.type cancelling = "")); [by left|].
        right. intros Hcin. apply Hcase. done. }
  split_and!.
  - intros Hnone. unfold TrafficSign.fromData, TrafficSign.type. by rewrite Hsigns, Hnone.
  - intros view ->%TrafficSign_fromData_Returns. done.
  - intros front rest Hfront Htyped. exists data. split; [|by eapply Htype].
    unfold TrafficSign.fromData. by rewrite (Htype front rest).
  - intros front rest view Hfront Htyped ->%TrafficSign_fromData_Returns.
    rewrite (cancelType_front w' data front rest) by (by rewrite Hcancelling).
    subst w'. unfold afterBothUpdates.
    rewrite attributesAt_updateTrafficSigns_inside;
      [by rewrite stampedAttributes_Subtype | done | rewrite Hfront; apply list_elem_of_here].
  - intros view Hnone ->%TrafficSign_fromData_Returns.
    unfold TrafficSign.cancelType. by rewrite Hcancelling, Hnone.
  - intros front rest Hfront Huntyped. clear Htype.
    assert (Hread : TrafficSign.type w' data
                    = match attributesAt w' (dataOf front) !! AttributeName.Subtype with
                      | Some value => Returns value
                      | None =>
                          Throws (InvalidInputError
                                    "Regulatory element has a traffic sign without subtype attribute!")
                      end)
      by (apply (type_front w' data front rest); by rewrite Hsigns).
    subst w'. unfold afterBothUpdates in *.
    rewrite (updateTrafficSigns_untyped signs w Huntyped) in *.
    unfold TrafficSign.fromData. case_decide as Hcase.
    + destruct Hcase as [Hctyped Hcin].
      rewrite attributesAt_updateTrafficSigns in Hread by done.
      rewrite decide_True in Hread by done.
      rewrite stampedAttributes_Subtype in Hread.
      exists data. split; [by rewrite Hread | exact Hread].
    + rewrite attributesAt_updateTrafficSigns_outside in Hread.
      * destruct (attributesAt w (dataOf front) !! AttributeName.Subtype).
        -- exists data. split; [by rewrite Hread | exact Hread].
        -- by rewrite Hread.
      * destruct (decide (TrafficSignsWithType.type cancelling = "")); [by left|].
        right. intros Hcin. apply Hcase. done.
Qed.

(** The view of the sample sign, built with the type "stop" and without a
    cancelling sign, has no defined [cancelType]. *)
Lemma TrafficSign_make_round_trip_witness :
  ∃ w' view,
    TrafficSign.make 1 ∅ Sample.stopSigns Sample.noSigns [] [] Sample.world = (w', Returns view)
    ∧ TrafficSign.type w' view = Returns "stop"
    ∧ TrafficSign.cancelType w' view = UndefinedBehaviour.
Proof.
  eexists _, _. split; [reflexivity|]. split; [reflexivity|].
  apply (proj1 (proj2 (proj2 (proj2 (proj2
           (TrafficSign_make_round_trip 1 ∅ Sample.stopSigns Sample.noSigns [] [] Sample.world))))));
    reflexivity.
Defined.

Lemma TrafficSign_fromData_with_attribute w name value data :
  TrafficSign.fromData w (with_attribute name value data)
  = Outcome_map (with_attribute name value) (TrafficSign.fromData w data).
Proof.
  unfold TrafficSign.fromData.
  change (TrafficSign.type w (with_attribute name value data)) with (TrafficSign.type w data).
  by destruct (TrafficSign.type w data).
Qed.

(** X11.  The typed constructor of a speed limit does what that of a traffic
    sign does, to the signs and in its outcome, except that the view it
    returns carries the subtype "speed_limit".  The [type] of the view is
    still read off its first sign. *)
Theorem SpeedLimit_make_is_TrafficSign_make (id : Z) (attrs : gmap string string)
    (signs cancelling : TrafficSignsWithType.t) (refLines cancelLines : list LineString3d)
    (w : World) :
  SpeedLimit.make id attrs signs cancelling refLines cancelLines w
  = ((TrafficSign.make id attrs signs cancelling refLines cancelLines w).1,
     Outcome_map (with_attribute AttributeName.Subtype "speed_limit")
       (TrafficSign.make id attrs signs cancelling refLines cancelLines w).2)
  ∧ ∀ w' name value data,
      TrafficSign.type w' (with_attribute name value data) = TrafficSign.type w' data
      ∧ TrafficSign.cancelType w' (with_attribute name value data) = TrafficSign.cancelType w' data.
Proof.
  split; [|done].
  rewrite TrafficSign_make_unfold. cbn [fst snd].
  rewrite <- TrafficSign_fromData_with_attribute. reflexivity.
Qed.

(** ** getManeuver, in terms of what the record stores *)

(** X12.  [getManeuver] answers RightOfWay exactly for the lanelets that are
    alive and whose weak handle the role RightOfWay holds, and Yield
    exactly for the others that are alive and whose weak handle the role
    Yield holds.  For a lanelet that has expired it answers Unknown,
    whatever the record holds. *)
Theorem getManeuver_reads_live_entries (w : World) (data : RegulatoryElementData)
    (lanelet : Lanelet) :
  (RightOfWay.getManeuver w data lanelet = ManeuverType.RightOfWay
   ↔ resolvesTo w data RoleName.RightOfWay lanelet)
  ∧ (RightOfWay.getManeuver w data lanelet = ManeuverType.Yield
     ↔ ¬ resolvesTo w data RoleName.RightOfWay lanelet
       ∧ resolvesTo w data RoleName.Yield lanelet)
  ∧ (expired w (Lanelet_data lanelet) = true →
     RightOfWay.getManeuver w data lanelet = ManeuverType.Unknown).
Proof.
  unfold RightOfWay.getManeuver, RightOfWay.rightOfWayLanelets, RightOfWay.yieldLanelets,
    resolvesTo.
  rewrite <- !elem_of_getParameters_ConstLanelet.
  assert (Hgone : expired w (Lanelet_data lanelet) = true →
                  ∀ role, lanelet ∉ getParameters_ConstLanelet w data role).
  { intros Hexp role [_ Halive%expired_alive]%elem_of_getParameters_ConstLanelet. congruence. }
  destruct (contains (getParameters_ConstLanelet w data RoleName.RightOfWay) lanelet) eqn:Hrow.
  - apply contains_elem_of in Hrow. split_and!.
    + split; [intros _; exact Hrow | done].
    + split; [done | intros [Hn _]; by destruct Hn].
    + intros Hexp. destruct (Hgone Hexp _ Hrow).
  - apply contains_not_elem_of in Hrow.
    destruct (contains (getParameters_ConstLanelet w data RoleName.Yield) lanelet) eqn:Hyield.
    + apply contains_elem_of in Hyield. split_and!.
      * split; [done | intros Hin; by destruct Hrow].
      * split; done.
      * intros Hexp. destruct (Hgone Hexp _ Hyield).
    + apply contains_not_elem_of in Hyield. split_and!.
      * split; [done | intros Hin; by destruct Hrow].
      * split; [done | intros [_ Hin]; by destruct Hyield].
      * done.
Qed.

(** ** What no mutator does *)

Lemma StopLineMutator_unfold mutator :
  StopLineMutator mutator →
  ∃ ps, mutator = with_parameter RoleName.RefLine ps ∧ (length ps ≤ 1)%nat.
Proof. intros [line| |line|]; eexists; (split; [reflexivity | simpl; lia]). Qed.

Lemma Mutates_changesOnly w data data' :
  Mutates w data data' → ∃ role, changesOnly role data data'.
Proof.
  intros [role p add remove d Hpair
         | role p add remove d found d' Hpair Hremove
         | mutator d Hmutator].
  - exists role. apply AddRemovePair_unfold in Hpair as [-> _].
    apply changesOnly_with_parameter.
  - exists role. apply AddRemovePair_unfold in Hpair as [_ ->].
    apply findAndEraseIn_Returns in Hremove as (member & _ & -> & _).
    apply changesOnly_with_parameter.
  - exists RoleName.RefLine. apply StopLineMutator_unfold in Hmutator as (ps & -> & _).
    apply changesOnly_with_parameter.
Qed.

(** X13.  Through any number of mutator calls, a record keeps its identifier and
    its attributes, the two reserved ones among them, and every role it
    lists stays listed.  So a remove mutator that is defined on a record
    is still defined after any calls of the other mutators. *)
Theorem mutators_keep_attributes_and_roles (w : World) (data data' : RegulatoryElementData) :
  rtc (Mutates w) data data' →
  id_ data' = id_ data
  ∧ attributes data' = attributes data
  ∧ dom (parameters data) ⊆ dom (parameters data')
  ∧ (∀ ruleName, tagged ruleName data → tagged ruleName data')
  ∧ (∀ role p add remove,
       AddRemovePair role p add remove →
       is_Some (parameters data !! role) →
       ∃ found data'', remove w data' = Returns (found, data'')).
Proof.
  intros Hcalls.
  assert (Hkept : id_ data' = id_ data ∧ attributes data' = attributes data
                  ∧ dom (parameters data) ⊆ dom (parameters data')).
  { induction Hcalls as [d | d d' d'' Hcall _ IH]; [done|].
    apply Mutates_changesOnly in Hcall as (role & Hid & Hattrs & _ & Hdom).
    destruct IH as (Hid' & Hattrs' & Hdom').
    split_and!; [congruence | congruence | set_solver]. }
  destruct Hkept as (Hid & Hattrs & Hdom). split_and!; try done.
  - intros ruleName. unfold tagged. by rewrite Hattrs.
  - intros role p add remove Hpair Hlisted%elem_of_dom.
    apply AddRemovePair_unfold in Hpair as [_ ->].
    apply (findAndEraseIn_definedIffListed w p role data').
    apply elem_of_dom. set_solver.
Qed.

(** The view of the sample sign lists the role RefLine from its
    construction on: after two signs were added to it, [removeRefLine] is
    defined. *)
Lemma mutators_keep_attributes_and_roles_witness :
  let view := (constructTrafficSignData 1 ∅ Sample.stopSigns Sample.noSigns [] [] Sample.world).2 in
  let view' := TrafficSign.addCancellingTrafficSign Sample.otherSign
                 (TrafficSign.addTrafficSign Sample.otherSign view) in
  tagged "traffic_sign" view'
  ∧ ∃ found view'', TrafficSign.removeRefLine Sample.world Sample.stopLine view'
                    = Returns (found, view'').
Proof.
  cbv zeta.
  set (view := (constructTrafficSignData 1 ∅ Sample.stopSigns Sample.noSigns [] [] Sample.world).2).
  assert (Hcalls : rtc (Mutates Sample.world) view
                     (TrafficSign.addCancellingTrafficSign Sample.otherSign
                        (TrafficSign.addTrafficSign Sample.otherSign view))).
  { eapply rtc_l; [apply (Mutates_add _ _ _ _ _ _ (TrafficSignPair Sample.otherSign))|].
    apply rtc_once. apply (Mutates_add _ _ _ _ _ _ (CancellingTrafficSignPair Sample.otherSign)). }
  destruct (mutators_keep_attributes_and_roles Sample.world _ _ Hcalls)
    as (_ & _ & _ & Htagged & Hdefined).
  split.
  - apply Htagged. split; reflexivity.
  - apply (Hdefined _ _ _ _ (RefLinePair Sample.stopLine)). vm_compute. eauto.
Defined.

(** ** The stop line *)

(** X14.  Setting a stop line makes it the only entry of the role RefLine,
    whatever the role held, and [stopLine] shows it; removing the stop line
    empties the role, which stays listed, and [stopLine] shows none.  Both
    leave everything else of the record as it is, and the second of two
    such calls undoes the first.  The accessors of TrafficLight and of
    RightOfWay show the same stop line on every record. *)
Theorem stop_line_is_replaced (data : RegulatoryElementData) :
  (∀ line,
     roleSequence (TrafficLight.setStopLine line data) RoleName.RefLine = [LineStringParam line]
     ∧ TrafficLight.stopLine (TrafficLight.setStopLine line data) = Some line
     ∧ RightOfWay.setStopLine line data = TrafficLight.setStopLine line data)
  ∧ (parameters (TrafficLight.removeStopLine data) !! RoleName.RefLine = Some []
     ∧ TrafficLight.stopLine (TrafficLight.removeStopLine data) = None
     ∧ RightOfWay.removeStopLine data = TrafficLight.removeStopLine data)
  ∧ (∀ mutator, StopLineMutator mutator →
       changesOnly RoleName.RefLine data (mutator data)
       ∧ (length (roleSequence (mutator data) RoleName.RefLine) ≤ 1)%nat
       ∧ ∀ mutator', StopLineMutator mutator' → mutator' (mutator data) = mutator' data)
  ∧ TrafficLight.stopLine data = RightOfWay.stopLine data.
Proof.
  split; [|split; [|split]].
  - intros line. split_and!; [apply roleSequence_with_parameter | | done].
    unfold TrafficLight.stopLine, getParameters_LineString3d, TrafficLight.setStopLine.
    by rewrite roleSequence_with_parameter.
  - split_and!; [apply lookup_insert_eq | | done].
    unfold TrafficLight.stopLine, getParameters_LineString3d, TrafficLight.removeStopLine.
    by rewrite roleSequence_with_parameter.
  - intros mutator (ps & -> & Hlen)%StopLineMutator_unfold. split_and!.
    + apply changesOnly_with_parameter.
    + by rewrite roleSequence_with_parameter.
    + intros mutator' (ps' & -> & _)%StopLineMutator_unfold.
      unfold with_parameter. simpl. f_equal. apply insert_insert_eq.
  - unfold TrafficLight.stopLine, RightOfWay.stopLine.
    by destruct (getParameters_LineString3d data RoleName.RefLine).
Qed.

Lemma stop_line_is_replaced_witness :
  TrafficLight.stopLine (TrafficLight.setStopLine Sample.stopLine Sample.lightWithMark)
  = Some Sample.stopLine
  ∧ (length (roleSequence (TrafficLight.setStopLine Sample.stopLine Sample.lightWithMark)
               RoleName.RefLine) ≤ 1)%nat.
Proof.
  split.
  - apply (proj1 (stop_line_is_replaced Sample.lightWithMark) Sample.stopLine).
  - apply (proj1 (proj2 (proj2 (stop_line_is_replaced Sample.lightWithMark)))
             _ (TrafficLightSetStopLine Sample.stopLine)).
Defined.

(** ** What an added reference does to the accessors *)

Lemma roleSequence_emplace_back role p data :
  roleSequence (emplace_back role p data) role = roleSequence data role ++ [p].
Proof. apply roleSequence_with_parameter. Qed.

Lemma roleSequence_with_parameter_ne role r ps data :
  r ≠ role → roleSequence (with_parameter role ps data) r = roleSequence data r.
Proof. intros Hne. unfold roleSequence. by rewrite parameters_with_parameter_ne. Qed.

Lemma trafficSigns_roleSequence data :
  TrafficSign.trafficSigns data = lineStringsOrPolygonsOf (roleSequence data RoleName.Refers).
Proof.
  unfold TrafficSign.trafficSigns. rewrite getConstLsOrPoly_getLsOrPoly.
  apply getLsOrPoly_roleSequence.
Qed.

Lemma lineStringsOrPolygonsOf_sign sign rest :
  lineStringsOrPolygonsOf (asRuleParameter sign :: rest) = sign :: lineStringsOrPolygonsOf rest.
Proof. by destruct sign. Qed.

(** X15.  What an add mutator appends shows at the end of the accessor of its
    role: a sign or a light after the signs or lights that were there, a
    line after the lines, a lanelet after the lanelets (when it is alive;
    the accessor skips it when it is not). *)
Theorem added_reference_shows_last (w : World) (data : RegulatoryElementData) :
  (∀ primitive,
     TrafficLight.trafficLights (TrafficLight.addTrafficLight primitive data)
     = TrafficLight.trafficLights data ++ [primitive])
  ∧ (∀ sign,
       TrafficSign.trafficSigns (TrafficSign.addTrafficSign sign data)
       = TrafficSign.trafficSigns data ++ [sign])
  ∧ (∀ sign,
       TrafficSign.cancellingTrafficSigns (TrafficSign.addCancellingTrafficSign sign data)
       = TrafficSign.cancellingTrafficSigns data ++ [sign])
  ∧ (∀ line,
       TrafficSign.refLines (TrafficSign.addRefLine line data)
       = TrafficSign.refLines data ++ [line])
  ∧ (∀ line,
       TrafficSign.cancelLines (TrafficSign.addCancellingRefLine line data)
       = TrafficSign.cancelLines data ++ [line])
  ∧ (∀ lanelet,
       RightOfWay.rightOfWayLanelets w (RightOfWay.addRightOfWayLanelet lanelet data)
       = RightOfWay.rightOfWayLanelets w data ++ aliveOnes w [lanelet])
  ∧ (∀ lanelet,
       RightOfWay.yieldLanelets w (RightOfWay.addYieldLanelet lanelet data)
       = RightOfWay.yieldLanelets w data ++ aliveOnes w [lanelet]).
Proof.
  assert (Hsigns : ∀ role sign,
            getConstLsOrPoly (parameters (emplace_back role (asRuleParameter sign) data)) role
            = getConstLsOrPoly (parameters data) role ++ [sign]).
  { intros role sign. rewrite !getConstLsOrPoly_getLsOrPoly, !getLsOrPoly_roleSequence.
    rewrite roleSequence_emplace_back, lineStringsOrPolygonsOf_app.
    by rewrite lineStringsOrPolygonsOf_sign. }
  assert (Hlines : ∀ role line,
            getParameters_LineString3d (emplace_back role (LineStringParam line) data) role
            = getParameters_LineString3d data role ++ [line]).
  { intros role line. unfold getParameters_LineString3d.
    by rewrite roleSequence_emplace_back, omap_app. }
  assert (Hlanelets : ∀ role lanelet,
            getParameters_ConstLanelet w (emplace_back role (RuleParameter_of_Lanelet lanelet) data)
              role
            = getParameters_ConstLanelet w data role ++ aliveOnes w [lanelet]).
  { intros role lanelet. unfold getParameters_ConstLanelet, getParameters_WeakLanelet.
    rewrite roleSequence_emplace_back, omap_app. unfold strong at 1. rewrite omap_app.
    f_equal. apply (strong_WeakLanelet_of w [lanelet]). }
  split_and!; intros; first [apply Hsigns | apply Hlines | apply Hlanelets].
Qed.

(** ** Mutators and the checks of the constructors *)

Lemma omap_app_unit {A B : Type} (f : A → option B) (pre post : list A) (x : A) (y : B) :
  f x = Some y → omap f (pre ++ x :: post) = [y] → omap f (pre ++ post) = [].
Proof.
  intros Hx. rewrite !omap_app. cbn [omap list_omap]. rewrite Hx.
  intros Hunit. apply (f_equal length) in Hunit. rewrite length_app in Hunit. simpl in Hunit.
  assert (Hpre : omap f pre = []) by (apply length_zero_iff_nil; lia).
  assert (Hpost : omap f post = []) by (apply length_zero_iff_nil; lia).
  by rewrite Hpre, Hpost.
Qed.

Lemma findAndEraseIn_sole_entry {B : Type} (f : RuleParameter → option B) w p y role data :
  RuleParameter_eq w p p = true →
  f p = Some y →
  omap f (roleSequence data role) = [y] →
  (∀ x, f x = Some y → x = p) →
  ∃ data', findAndEraseIn w p role data = Returns (true, data')
           ∧ omap f (roleSequence data' role) = [].
Proof.
  intros Hrefl Hp Hsole Hinj. unfold findAndEraseIn, roleSequence in *.
  destruct (parameters data !! role) as [member|] eqn:Hlook; [|done]. simpl in Hsole.
  assert (Hin : p ∈ member).
  { assert (Hy : y ∈ omap f member) by (rewrite Hsole; apply list_elem_of_here).
    apply list_elem_of_omap in Hy as (x & Hx & Hfx). by rewrite <- (Hinj x Hfx). }
  destruct (findAndErase_cases w p member)
    as [[Habs _] | (pre & post & -> & _ & _ & ->)].
  { rewrite (Habs p Hin) in Hrefl. done. }
  eexists. split; [reflexivity|]. simpl. rewrite lookup_insert_eq. simpl.
  by eapply omap_app_unit.
Qed.

(** X16.  A traffic light that passes the check of its constructor still passes
    it after [addTrafficLight], [setStopLine] and [removeStopLine].
    [removeTrafficLight] is not checked: called with the only linestring
    among the lights, it answers true and leaves a record that the
    constructor refuses. *)
Theorem TrafficLight_mutators_and_validity (w : World) (data : RegulatoryElementData) :
  TrafficLight.fromData data = Returns data →
  (∀ primitive,
     TrafficLight.fromData (TrafficLight.addTrafficLight primitive data)
     = Returns (TrafficLight.addTrafficLight primitive data))
  ∧ (∀ line, TrafficLight.fromData (TrafficLight.setStopLine line data)
             = Returns (TrafficLight.setStopLine line data))
  ∧ TrafficLight.fromData (TrafficLight.removeStopLine data)
    = Returns (TrafficLight.removeStopLine data)
  ∧ (∀ light,
       getParameters_LineString3d data RoleName.Refers = [light] →
       ∃ data',
         TrafficLight.removeTrafficLight w (IsLineString light) data = Returns (true, data')
         ∧ TrafficLight.fromData data'
           = Throws (InvalidInputError "No traffic light defined!")).
Proof.
  intros (_ & Hlights & Hlines)%TrafficLight_fromData_Returns.
  assert (Hvalid : ∀ data',
            getParameters_LineString3d data' RoleName.Refers ≠ [] →
            (length (getParameters_LineString3d data' RoleName.RefLine) ≤ 1)%nat →
            TrafficLight.fromData data' = Returns data').
  { intros data' Hl Hs. rewrite TrafficLight_fromData_spec.
    rewrite decide_False by done. by rewrite decide_False by lia. }
  assert (Hstop : ∀ ps, (length ps ≤ 1)%nat →
            TrafficLight.fromData (with_parameter RoleName.RefLine ps data)
            = Returns (with_parameter RoleName.RefLine ps data)).
  { intros ps Hps. apply Hvalid; unfold getParameters_LineString3d.
    - by rewrite roleSequence_with_parameter_ne.
    - rewrite roleSequence_with_parameter.
      destruct ps as [|x [|x' rest]]; [simpl; lia | | simpl in Hps; lia].
      cbn. destruct (get_LineString3d x); simpl; lia. }
  split_and!.
  - intros primitive. apply Hvalid; unfold getParameters_LineString3d, TrafficLight.addTrafficLight.
    + rewrite roleSequence_emplace_back, omap_app.
      intros [Hnil _]%app_eq_nil. by apply Hlights.
    + unfold emplace_back. by rewrite roleSequence_with_parameter_ne.
  - intros line. by apply Hstop.
  - apply Hstop. simpl. lia.
  - intros light Hsole.
    destruct (findAndEraseIn_sole_entry get_LineString3d w (LineStringParam light) light
                RoleName.Refers data) as (data' & Hremove & Hnone); try done.
    { apply RuleParameter_eq_refl_line. }
    { intros x Hx. by destruct x; simplify_eq/=. }
    exists data'. split; [exact Hremove|].
    rewrite TrafficLight_fromData_spec. by rewrite decide_True.
Qed.

Lemma TrafficLight_mutators_and_validity_witness :
  ∃ view data',
    TrafficLight.make 1 ∅ [Sample.lightA] None = Returns view
    ∧ TrafficLight.removeTrafficLight Sample.world (IsLineString Sample.lightA) view
      = Returns (true, data')
    ∧ TrafficLight.fromData data' = Throws (InvalidInputError "No traffic light defined!").
Proof.
  exists (constructTrafficLightData 1 ∅ [Sample.lightA] None).
  destruct (proj2 (proj2 (proj2
              (TrafficLight_mutators_and_validity Sample.world
                 (constructTrafficLightData 1 ∅ [Sample.lightA] None) eq_refl)))
              Sample.lightA eq_refl)
    as (data' & Hremove & Hthrows).
  exists data'. split; [reflexivity|]. split; [exact Hremove | exact Hthrows].
Defined.

(** X17.  A right of way that passes the check of its constructor still passes
    it after a lanelet is added to either role and after the stop line is
    set or removed.  The remove mutators are not checked: called with the
    only lanelet of their role, they answer true and leave a record that
    the constructor refuses. *)
Theorem RightOfWay_mutators_and_validity (w : World) (data : RegulatoryElementData) :
  RightOfWay.fromData data = Returns data →
  (∀ lanelet,
     RightOfWay.fromData (RightOfWay.addRightOfWayLanelet lanelet data)
     = Returns (RightOfWay.addRightOfWayLanelet lanelet data)
     ∧ RightOfWay.fromData (RightOfWay.addYieldLanelet lanelet data)
       = Returns (RightOfWay.addYieldLanelet lanelet data))
  ∧ (∀ line, RightOfWay.fromData (RightOfWay.setStopLine line data)
             = Returns (RightOfWay.setStopLine line data))
  ∧ RightOfWay.fromData (RightOfWay.removeStopLine data)
    = Returns (RightOfWay.removeStopLine data)
  ∧ (∀ lanelet,
       Lanelet_data lanelet ∈ alive w →
       (getParameters_WeakLanelet data RoleName.RightOfWay = [WeakLanelet_of lanelet] →
        ∃ data',
          RightOfWay.removeRightOfWayLanelet w lanelet data = Returns (true, data')
          ∧ throws (RightOfWay.fromData data'))
       ∧ (getParameters_WeakLanelet data RoleName.Yield = [WeakLanelet_of lanelet] →
          ∃ data',
            RightOfWay.removeYieldLanelet w lanelet data = Returns (true, data')
            ∧ throws (RightOfWay.fromData data'))).
Proof.
  intros (_ & Hrow & Hyield)%RightOfWay_fromData_Returns.
  assert (Hvalid : ∀ data',
            getParameters_WeakLanelet data' RoleName.RightOfWay ≠ [] →
            getParameters_WeakLanelet data' RoleName.Yield ≠ [] →
            RightOfWay.fromData data' = Returns data').
  { intros data' Hr Hy. unfold RightOfWay.fromData.
    rewrite decide_False by done. by rewrite decide_False by done. }
  assert (Hadd : ∀ role r p,
            getParameters_WeakLanelet data r ≠ [] →
            getParameters_WeakLanelet (emplace_back role p data) r ≠ []).
  { intros role r p Hr. unfold getParameters_WeakLanelet, emplace_back.
    destruct (decide (r = role)) as [->|Hne].
    - rewrite roleSequence_with_parameter, omap_app. intros [Hnil _]%app_eq_nil. by apply Hr.
    - by rewrite roleSequence_with_parameter_ne. }
  assert (Hstop : ∀ ps, RightOfWay.fromData (with_parameter RoleName.RefLine ps data)
                        = Returns (with_parameter RoleName.RefLine ps data)).
  { intros ps. apply Hvalid; unfold getParameters_WeakLanelet;
      by rewrite roleSequence_with_parameter_ne. }
  split_and!.
  - intros lanelet. split; apply Hvalid; by apply Hadd.
  - intros line. apply Hstop.
  - apply Hstop.
  - intros lanelet Halive.
    assert (Hinj : ∀ x, get_WeakLanelet x = Some (WeakLanelet_of lanelet) →
                        x = RuleParameter_of_Lanelet lanelet)
      by (intros x Hx; by destruct x; simplify_eq/=).
    split; intros Hsole.
    + destruct (findAndEraseIn_sole_entry get_WeakLanelet w (RuleParameter_of_Lanelet lanelet)
                  (WeakLanelet_of lanelet) RoleName.RightOfWay data)
        as (data' & Hremove & Hnone); try done.
      { by apply RuleParameter_eq_refl_lanelet. }
      exists data'. split; [exact Hremove|].
      unfold RightOfWay.fromData, getParameters_WeakLanelet. rewrite Hnone.
      rewrite decide_True by done. by eexists.
    + destruct (findAndEraseIn_sole_entry get_WeakLanelet w (RuleParameter_of_Lanelet lanelet)
                  (WeakLanelet_of lanelet) RoleName.Yield data)
        as (data' & Hremove & Hnone); try done.
      { by apply RuleParameter_eq_refl_lanelet. }
      exists data'. split; [exact Hremove|].
      unfold RightOfWay.fromData, getParameters_WeakLanelet. rewrite Hnone.
      case_decide; [by eexists|]. rewrite decide_True by done. by eexists.
Qed.

Lemma RightOfWay_mutators_and_validity_witness :
  ∃ data',
    RightOfWay.removeYieldLanelet Sample.world Sample.laneletB Sample.crossing
    = Returns (true, data')
    ∧ throws (RightOfWay.fromData data').
Proof.
  apply (proj2 (proj2 (proj2 (proj2
            (RightOfWay_mutators_and_validity Sample.world Sample.crossing eq_refl)))
            Sample.laneletB ltac:(vm_compute; set_solver))).
  reflexivity.
Defined.

(** ** The type of a traffic sign under the mutators *)

Lemma type_same_signs w data data' :
  roleSequence data' RoleName.Refers = roleSequence data RoleName.Refers →
  TrafficSign.type w data' = TrafficSign.type w data.
Proof.
  intros Hseq. unfold TrafficSign.type. by rewrite !trafficSigns_roleSequence, Hseq.
Qed.

(** X18.  [type] is read off the first sign, so it survives every mutator that
    leaves the first sign in place: [addTrafficSign] on a view that has a
    sign, every mutator of another role, and [removeTrafficSign] of a sign
    other than the first.  On a record without a sign, [addTrafficSign]
    makes the Subtype of the added sign the type. *)
Theorem type_follows_the_first_sign (w : World) (data : RegulatoryElementData) :
  (∀ sign, TrafficSign.trafficSigns data ≠ [] →
           TrafficSign.type w (TrafficSign.addTrafficSign sign data) = TrafficSign.type w data)
  ∧ (∀ sign, TrafficSign.trafficSigns data = [] →
             TrafficSign.type w (TrafficSign.addTrafficSign sign data)
             = match attributesAt w (dataOf sign) !! AttributeName.Subtype with
               | Some value => Returns value
               | None =>
                   Throws (InvalidInputError
                             "Regulatory element has a traffic sign without subtype attribute!")
               end)
  ∧ (∀ role p add remove,
       AddRemovePair role p add remove → role ≠ RoleName.Refers →
       TrafficSign.type w (add data) = TrafficSign.type w data
       ∧ ∀ found data', remove w data = Returns (found, data') →
                        TrafficSign.type w data' = TrafficSign.type w data)
  ∧ (∀ sign found data' front rest,
       TrafficSign.removeTrafficSign w sign data = Returns (found, data') →
       TrafficSign.trafficSigns data = front :: rest →
       front ≠ sign →
       TrafficSign.type w data' = TrafficSign.type w data).
Proof.
  assert (Hadded : ∀ sign,
            TrafficSign.trafficSigns (TrafficSign.addTrafficSign sign data)
            = TrafficSign.trafficSigns data ++ [sign]).
  { intros sign. rewrite !trafficSigns_roleSequence. unfold TrafficSign.addTrafficSign.
    by rewrite roleSequence_emplace_back, lineStringsOrPolygonsOf_app,
      lineStringsOrPolygonsOf_sign. }
  split_and!.
  - intros sign Hsigns.
    destruct (TrafficSign.trafficSigns data) as [|front rest] eqn:Hfront; [done|].
    rewrite (type_front w data front rest Hfront).
    apply (type_front w _ front (rest ++ [sign])). by rewrite Hadded.
  - intros sign Hsigns. apply (type_front w _ sign []). by rewrite Hadded, Hsigns.
  - intros role p add remove [-> ->]%AddRemovePair_unfold Hne. split.
    + apply type_same_signs. unfold emplace_back. by rewrite roleSequence_with_parameter_ne.
    + intros found data' (member & _ & -> & _)%findAndEraseIn_Returns.
      apply type_same_signs. by rewrite roleSequence_with_parameter_ne.
  - intros sign found data' front rest Hremove Hfront Hne.
    apply findAndEraseIn_Returns in Hremove as (member & Hlook & -> & _).
    rewrite (type_front w data front rest Hfront).
    rewrite trafficSigns_roleSequence in Hfront. unfold roleSequence in Hfront.
    rewrite Hlook in Hfront. simpl in Hfront.
    destruct (findAndErase_cases w (asRuleParameter sign) member)
      as [[_ ->] | (pre & post & -> & _ & _ & ->)]; simpl.
    + apply (type_front w _ front rest).
      by rewrite trafficSigns_roleSequence, roleSequence_with_parameter.
    + rewrite lineStringsOrPolygonsOf_app, lineStringsOrPolygonsOf_sign in Hfront.
      destruct (lineStringsOrPolygonsOf pre) as [|front' pre'] eqn:Hpre;
        simpl in Hfront; simplify_eq.
      apply (type_front w _ front (pre' ++ lineStringsOrPolygonsOf post)).
      rewrite trafficSigns_roleSequence, roleSequence_with_parameter.
      by rewrite lineStringsOrPolygonsOf_app, Hpre.
Qed.

(** ** Building the same traffic sign again *)

Lemma stampedAttributes_absorbs type type' m :
  stampedAttributes type (stampedAttributes type' m) = stampedAttributes type m.
Proof.
  unfold stampedAttributes. apply map_eq. intros name.
  destruct (decide (name = AttributeName.Subtype)) as [->|Hsub]; [by simplify_map_eq|].
  destruct (decide (name = AttributeName.Type_)) as [->|Htype]; by simplify_map_eq.
Qed.

Lemma attributesAt_updateTrafficSigns_cases group w q :
  attributesAt (updateTrafficSigns group w) q = attributesAt w q
  ∨ attributesAt (updateTrafficSigns group w) q
    = stampedAttributes (TrafficSignsWithType.type group) (attributesAt w q).
Proof.
  destruct (decide (TrafficSignsWithType.type group = "")) as [Hempty|Htyped].
  - left. by rewrite updateTrafficSigns_untyped.
  - rewrite attributesAt_updateTrafficSigns by done. case_decide; auto.
Qed.

Lemma type_same_attributes w w' data :
  (∀ q, attributesAt w' q = attributesAt w q) →
  TrafficSign.type w' data = TrafficSign.type w data.
Proof.
  intros Hsame. unfold TrafficSign.type, hasAttribute, attribute.
  destruct (TrafficSign.trafficSigns data); [done|]. by rewrite Hsame.
Qed.

(** X19.  The updates of [constructTrafficSignData] settle at once: run again on
    the world they left, with the same two groups, they change no
    attribute of any object.  So the constructor, called again with the
    same arguments, has the same outcome. *)
Theorem construction_is_idempotent_on_signs (id : Z) (attrs : gmap string string)
    (signs cancelling : TrafficSignsWithType.t) (refLines cancelLines : list LineString3d)
    (w : World) :
  let w' := (TrafficSign.make id attrs signs cancelling refLines cancelLines w).1 in
  let w'' := (TrafficSign.make id attrs signs cancelling refLines cancelLines w').1 in
  (∀ q, attributesAt w'' q = attributesAt w' q)
  ∧ alive w'' = alive w
  ∧ (TrafficSign.make id attrs signs cancelling refLines cancelLines w').2
    = (TrafficSign.make id attrs signs cancelling refLines cancelLines w).2.
Proof.
  cbv zeta. rewrite !TrafficSign_make_unfold. cbn [fst snd].
  assert (Hsame : ∀ q, attributesAt (afterBothUpdates signs cancelling
                                       (afterBothUpdates signs cancelling w)) q
                       = attributesAt (afterBothUpdates signs cancelling w) q).
  { intros q. unfold afterBothUpdates.
    set (w1 := updateTrafficSigns signs w).
    set (w2 := updateTrafficSigns cancelling w1).
    set (w3 := updateTrafficSigns signs w2).
    destruct (decide (TrafficSignsWithType.type cancelling = "")) as [Hc|Hc];
      destruct (decide (TrafficSignsWithType.type signs = "")) as [Hs|Hs].
    - subst w1 w2 w3. by rewrite !updateTrafficSigns_untyped.
    - subst w2 w3. rewrite !(updateTrafficSigns_untyped cancelling) by done.
      subst w1. rewrite !attributesAt_updateTrafficSigns by done.
      case_decide; [apply stampedAttributes_idemp | done].
    - subst w1 w3. rewrite !(updateTrafficSigns_untyped signs) by done.
      subst w2. rewrite !attributesAt_updateTrafficSigns by done.
      case_decide; [apply stampedAttributes_idemp | done].
    - rewrite (attributesAt_updateTrafficSigns cancelling w3) by done.
      subst w3. rewrite (attributesAt_updateTrafficSigns signs w2) by done.
      subst w2. rewrite (attributesAt_updateTrafficSigns cancelling w1) by done.
      subst w1. rewrite (attributesAt_updateTrafficSigns signs w) by done.
      repeat case_decide;
        rewrite ?stampedAttributes_absorbs, ?stampedAttributes_idemp; done. }
  split_and!.
  - exact Hsame.
  - unfold afterBothUpdates. by rewrite !alive_updateTrafficSigns.
  - unfold TrafficSign.fromData. by rewrite (type_same_attributes _ _ _ Hsame).
Qed.
